(** * tasks/utils.py: pyinvoke task utilities, embedded and verified

    The module under study is [src/tasks/utils.py].  Its functions print,
    read the environment, touch the file system and run external commands;
    they are embedded here as computations of a small state-and-exception
    monad [Py] over a record [World].  The Python builtins and library
    calls the module relies on ([str] methods, [int], [sorted], [re.match],
    [pathlib.Path], [open]) are given executable models first. *)

From Stdlib Require Import ZArith NArith List String Ascii Lia Sorted Permutation.
From stdpp Require Import base option list gmap.

Local Open Scope N_scope.

(** ** Python [str]: a sequence of Unicode code points *)

Definition char := N.
Definition str := list char.

(** An ASCII literal as a [str]. *)
Definition lit (s : string) : str := List.map N_of_ascii (list_ascii_of_string s).

Definition NL : char := 10.   (* "\n" *)
Definition CR : char := 13.   (* "\r" *)
Definition DOT : char := 46.  (* "." *)

(** Truthiness of a [str]: non-empty. *)
Definition truthy (s : str) : bool :=
  match s with [] => false | _ :: _ => true end.

Fixpoint str_eqb (a b : str) : bool :=
  match a, b with
  | [], [] => true
  | x :: a', y :: b' => (x =? y) && str_eqb a' b'
  | _, _ => false
  end.

(** [s.startswith(prefix)] *)
Fixpoint startswith (s prefix : str) : bool :=
  match prefix, s with
  | [], _ => true
  | p :: prefix', c :: s' => (c =? p) && startswith s' prefix'
  | _ :: _, [] => false
  end.

(** [s.split(sep)] for a one-character separator: never the empty list,
    and empty fields are kept. *)
Fixpoint split (sep : char) (s : str) : list str :=
  match s with
  | [] => [[]]
  | c :: s' =>
      if c =? sep then [] :: split sep s'
      else match split sep s' with
           | [] => [[c]]
           | field :: fields => (c :: field) :: fields
           end
  end.

(** [sep.join(items)] *)
Fixpoint join (sep : str) (items : list str) : str :=
  match items with
  | [] => []
  | x :: rest =>
      match rest with
      | [] => x
      | _ :: _ => x ++ sep ++ join sep rest
      end
  end.

(** [s.rstrip(chars)]: drop the longest suffix made of characters of [chars]. *)
Fixpoint lstrip_by (p : char -> bool) (s : str) : str :=
  match s with
  | [] => []
  | c :: s' => if p c then lstrip_by p s' else s
  end.

Definition rstrip_by (p : char -> bool) (s : str) : str :=
  rev (lstrip_by p (rev s)).

Definition rstrip (chars s : str) : str :=
  rstrip_by (fun c => existsb (N.eqb c) chars) s.

(** [s.upper()].  ASCII letters are mapped; the Unicode case tables for
    code points above 127 are not part of this development and such code
    points are left as they are. *)
Definition upper_char (c : char) : char :=
  if (97 <=? c) && (c <=? 122) then c - 32 else c.

Definition upper (s : str) : str := List.map upper_char s.

(** ** [int(s)] on a [str], base 10

    Surrounding ASCII whitespace is skipped, one sign is allowed, then
    decimal digits follow in which single underscores may separate digits.
    [None] stands for [ValueError].  Whitespace and decimal digits outside
    ASCII and the interpreter's configurable cap on the number of digits
    are not modelled. *)

Definition isspace (c : char) : bool := ((9 <=? c) && (c <=? 13)) || (c =? 32).

Definition isdigit (c : char) : bool := (48 <=? c) && (c <=? 57).

Definition digit_value (c : char) : Z := Z.of_N (c - 48).

Fixpoint parse_digits (acc : Z) (after_digit : bool) (s : str) : option Z :=
  match s with
  | [] => if after_digit then Some acc else None
  | c :: s' =>
      if isdigit c then parse_digits (acc * 10 + digit_value c)%Z true s'
      else if (c =? 95) && after_digit then parse_digits acc false s'
      else None
  end.

Definition py_int (s : str) : option Z :=
  match rstrip_by isspace (lstrip_by isspace s) with
  | [] => None
  | c :: ds =>
      if c =? 43 then parse_digits 0 false ds                    (* "+" *)
      else if c =? 45 then Z.opp <$> parse_digits 0 false ds     (* "-" *)
      else parse_digits 0 false (c :: ds)
  end.

(** ** Comparison of lists of integers ([list.__lt__]): lexicographic,
    a proper prefix being smaller. *)
Fixpoint list_lt (a b : list Z) : bool :=
  match a, b with
  | [], [] => false
  | [], _ :: _ => true
  | _ :: _, [] => false
  | x :: a', y :: b' =>
      if (x =? y)%Z then list_lt a' b' else (x <? y)%Z
  end.

Definition list_le (a b : list Z) : bool := negb (list_lt b a).

(** ** [sorted(items, key=...)]

    The keys are computed for every item first, in order, and the first
    failing key aborts the sort.  Python's sort is stable and only asks
    [<] of the keys; a stable insertion sort gives the same list. *)
Section Sorted.
Context {A K : Type} (lt : K -> K -> bool).

Fixpoint insert_keyed (x : K * A) (l : list (K * A)) : list (K * A) :=
  match l with
  | [] => [x]
  | y :: l' => if lt y.1 x.1 then y :: insert_keyed x l' else x :: l
  end.

Fixpoint sort_keyed (l : list (K * A)) : list (K * A) :=
  match l with
  | [] => []
  | x :: l' => insert_keyed x (sort_keyed l')
  end.

Fixpoint decorate (key : A -> option K) (items : list A) : option (list (K * A)) :=
  match items with
  | [] => Some []
  | x :: items' =>
      match key x with
      | None => None
      | Some k =>
          match decorate key items' with
          | None => None
          | Some rest => Some ((k, x) :: rest)
          end
      end
  end.

Definition sorted (key : A -> option K) (items : list A) : option (list A) :=
  (fun decorated => List.map snd (sort_keyed decorated)) <$> decorate key items.
End Sorted.

(** ** The world the tasks run in *)

(** [pathlib.Path] on a POSIX system: whether the path is anchored at the
    root, and its components.  No component is empty or ["."]. *)
Record Path := mkPath { anchored : bool; parts : list str }.

Definition SLASH : char := 47.

Definition is_dot (c : str) : bool := str_eqb c [DOT].
Definition is_dotdot (c : str) : bool := str_eqb c [DOT; DOT].

(** [Path(s)] *)
Definition Path_of (s : str) : Path :=
  {| anchored := startswith s [SLASH];
     parts := List.filter (fun c => truthy c && negb (is_dot c)) (split SLASH s) |}.

(** [p / s] *)
Definition truediv (p : Path) (s : str) : Path :=
  let q := Path_of s in
  if anchored q then q
  else {| anchored := anchored p; parts := parts p ++ parts q |}.

(** [p.parent] *)
Definition parent (p : Path) : Path :=
  {| anchored := anchored p; parts := removelast (parts p) |}.

(** [p.is_relative_to(q)]: [p] is [q] or lies below it. *)
Fixpoint is_prefix (a b : list str) : bool :=
  match a, b with
  | [], _ => true
  | x :: a', y :: b' => str_eqb x y && is_prefix a' b'
  | _ :: _, [] => false
  end.

Definition is_relative_to (p q : Path) : bool :=
  Bool.eqb (anchored p) (anchored q) && is_prefix (parts q) (parts p).

(** class ProjectInfo *)
Record ProjectInfo := {
  source_directory : Path;
  tests_directory : Path;
  unit_tests_directory : Path;
  integration_tests_directory : Path;
  tasks_directory : Path;
  reports_directory : Path;
}.

(** The class body, evaluated once when the module is loaded: the two
    test directories are computed from [tests_directory]. *)
Definition ProjectInfo_new : ProjectInfo :=
  let tests := Path_of (lit "tests") in
  {| source_directory := Path_of (lit "src");
     tests_directory := tests;
     unit_tests_directory := truediv tests (lit "unit");
     integration_tests_directory := truediv tests (lit "integration");
     tasks_directory := Path_of (lit "tasks");
     reports_directory := Path_of (lit "reports") |}.

(** A node of the file system: a directory, or a regular file, given by
    the code points its bytes decode to as UTF-8.  Other kinds of entries
    (FIFOs, sockets, symbolic links) and permissions are not modelled. *)
Inductive node :=
| Dir
| File (text : str).

Inductive color := green | red.

Inductive hide := hide_nothing | hide_stdout | hide_both.

(** What a task does that can be observed from outside. *)
Inductive event :=
| Print (text : str)                              (* print(text) *)
| Secho (text : str) (fg : color)                 (* click.secho(text, fg=...) *)
| Run (command : str) (pty : bool) (h : hide).    (* ctx.run(command, ...) *)

Inductive exn :=
| KeyError (key : Z)
| ValueError
| FileNotFoundError
| FileExistsError
| NotADirectoryError
| IsADirectoryError
| UnexpectedExit
| Exit (message : option str) (code : option Z).

(** [Exit.code] of invoke, the status the process ends with when the
    exception reaches the top: the code that was given; without one, 1
    when there is a message and 0 when there is none. *)
Definition Exit_code (message : option str) (code : option Z) : Z :=
  match code with
  | Some status => status
  | None =>
      match message with
      | Some text => if truthy text then 1%Z else 0%Z
      | None => 0%Z
      end
  end.

(** [files] maps the components of an absolute path to the node found
    there (the root itself, [[]], always is a directory); symbolic links
    and permissions are not modelled.  [terminal] is the size
    [shutil.get_terminal_size] detects, if it detects one. *)
Record World := {
  PROJECT_INFO : ProjectInfo;
  files : gmap (list str) node;
  cwd : list str;
  environ : gmap str str;
  terminal : option (Z * Z);
  trace : list event;
}.

Inductive result (A : Type) :=
| Return (a : A)
| Raise (e : exn).
Arguments Return {A} a.
Arguments Raise {A} e.

Definition Py (A : Type) : Type := World -> result A * World.

Definition ret {A} (a : A) : Py A := fun w => (Return a, w).
Definition raise {A} (e : exn) : Py A := fun w => (Raise e, w).

Definition bind {A B} (c : Py A) (k : A -> Py B) : Py B :=
  fun w =>
    match c w with
    | (Return a, w') => k a w'
    | (Raise e, w') => (Raise e, w')
    end.

Notation "x <- c ;; k" := (bind c (fun x => k))
  (at level 100, c at next level, right associativity).
Notation "c ;; k" := (bind c (fun _ => k))
  (at level 100, right associativity).

Definition get {A} (f : World -> A) : Py A := fun w => (Return (f w), w).

Definition emit (e : event) : Py unit :=
  fun w =>
    (Return tt,
     {| PROJECT_INFO := PROJECT_INFO w; files := files w; cwd := cwd w;
        environ := environ w; terminal := terminal w;
        trace := trace w ++ [e] |}).

Definition set_files (fs : gmap (list str) node) : Py unit :=
  fun w =>
    (Return tt,
     {| PROJECT_INFO := PROJECT_INFO w; files := fs; cwd := cwd w;
        environ := environ w; terminal := terminal w; trace := trace w |}).

Definition print (text : str) : Py unit := emit (Print text).
Definition secho (text : str) (fg : color) : Py unit := emit (Secho text fg).

(** [invoke.Context]: what an external command answers.  [Some out] is a
    command that exits with status 0 and wrote [out] on its standard
    output; [None] is a command that fails, which [run] reports by raising
    [UnexpectedExit].  What a command does to the machine (the files it
    writes or removes) is outside the model: [ctx_run] records the call
    and hands back the answer, and nothing is stated below about the file
    system after a command was run. *)
Record Context := { answer : str -> option str }.

Definition ctx_run (ctx : Context) (command : str) (pty : bool) (h : hide) : Py str :=
  emit (Run command pty h) ;;
  match answer ctx command with
  | Some out => ret out
  | None => raise UnexpectedExit
  end.

Definition try_except {A} (c : Py A) (handler : exn -> Py A) : Py A :=
  fun w =>
    match c w with
    | (Return a, w') => (Return a, w')
    | (Raise e, w') => handler e w'
    end.

(** ** The [re] module: patterns and matching

    A pattern is taken in parsed form, and only a fragment of the
    pattern language is covered: literal characters, [.], [^], [$],
    concatenation, alternation and star.  The other anchors and
    assertions ([\A], [\Z], [\b], look-around), classes, groups, flags
    and the compilation errors of ill-formed patterns are not in it.
    [ends] lists the positions at which a match of the pattern that
    starts at position [i] of the subject can end; [re.match] succeeds
    when there is one. *)
Module re.

Inductive pattern :=
| Empty                        (* the empty pattern *)
| Char (c : char)              (* a literal character *)
| AnyChar                      (* .  *)
| Bol                          (* ^  *)
| Eol                          (* $  *)
| Cat (p q : pattern)          (* pq *)
| Alt (p q : pattern)          (* p|q *)
| Star (p : pattern).          (* p* *)

Section Subject.
Variable dotall : bool.
Variable s : str.

(** [.] takes any character, a newline only under [DOTALL]. *)
Definition dot_accepts (c : char) : bool := dotall || negb (c =? NL).

(** [$] holds at the end of the subject and just before a newline that
    ends the subject. *)
Definition at_eol (i : nat) : bool :=
  Nat.eqb i (List.length s)
  || (Nat.eqb (S i) (List.length s)
      && match nth_error s i with Some c => c =? NL | None => false end).

Fixpoint star_ends (fuel : nat) (once : nat -> list nat) (i : nat) : list nat :=
  i :: match fuel with
       | O => []
       | S fuel' =>
           flat_map (star_ends fuel' once)
                    (List.filter (fun j => Nat.ltb i j) (once i))
       end.

Fixpoint ends (p : pattern) (i : nat) : list nat :=
  match p with
  | Empty => [i]
  | Char c =>
      match nth_error s i with
      | Some c' => if c' =? c then [S i] else []
      | None => []
      end
  | AnyChar =>
      match nth_error s i with
      | Some c' => if dot_accepts c' then [S i] else []
      | None => []
      end
  | Bol => if Nat.eqb i 0 then [i] else []
  | Eol => if at_eol i then [i] else []
  | Cat p q => flat_map (ends q) (ends p i)
  | Alt p q => ends p i ++ ends q i
  | Star p => star_ends (List.length s - i) (ends p) i
  end.

(** The meaning of a pattern, stated without reference to [ends]:
    [Matches p i j] when [p] takes the subject from position [i] to
    position [j]. *)
Inductive Matches : pattern -> nat -> nat -> Prop :=
| M_Empty i : Matches Empty i i
| M_Char c i : nth_error s i = Some c -> Matches (Char c) i (S i)
| M_AnyChar c i :
    nth_error s i = Some c -> dot_accepts c = true -> Matches AnyChar i (S i)
| M_Bol : Matches Bol 0 0
| M_Eol i : at_eol i = true -> Matches Eol i i
| M_Cat p q i j k : Matches p i j -> Matches q j k -> Matches (Cat p q) i k
| M_AltL p q i j : Matches p i j -> Matches (Alt p q) i j
| M_AltR p q i j : Matches q i j -> Matches (Alt p q) i j
| M_Star0 p i : Matches (Star p) i i
| M_StarS p i j k :
    Matches p i j -> Matches (Star p) j k -> Matches (Star p) i k.
End Subject.

(** [re.match(p, s, flags)], as a truth value: the pattern matches at
    the start of [s]. *)
Definition match_ (p : pattern) (s : str) (dotall : bool) : bool :=
  match ends dotall s p 0 with [] => false | _ :: _ => true end.

(** [re.fullmatch(p, s, flags)], as a truth value: the pattern matches
    all of [s]. *)
Definition fullmatch (p : pattern) (s : str) (dotall : bool) : bool :=
  existsb (Nat.eqb (List.length s)) (ends dotall s p 0).

Definition DOTALL : bool := true.

(** A literal string as a pattern. *)
Fixpoint literal (s : str) : pattern :=
  match s with
  | [] => Empty
  | c :: s' => Cat (Char c) (literal s')
  end.
End re.

(** ** The functions of tasks/utils.py *)

(** *** ensure_reports_dir *)

Definition lookup_node (fs : gmap (list str) node) (key : list str) : option node :=
  match key with
  | [] => Some Dir
  | _ :: _ => fs !! key
  end.

(** One component of a path, followed from the directory [at_]. *)
Definition step_component (at_ : list str) (c : str) : list str :=
  if truthy c && negb (is_dot c)
  then if is_dotdot c then removelast at_ else at_ ++ [c]
  else at_.

(** Path resolution: every component is looked up in a directory that
    exists. *)
Fixpoint walk (fs : gmap (list str) node) (at_ : list str) (comps : list str)
  : result (list str) :=
  match comps with
  | [] => Return at_
  | c :: comps' =>
      match lookup_node fs at_ with
      | Some Dir => walk fs (step_component at_ c) comps'
      | Some (File _) => Raise NotADirectoryError
      | None => Raise FileNotFoundError
      end
  end.

Definition start_of (w : World) (is_anchored : bool) : list str :=
  if is_anchored then [] else cwd w.

(** [os.mkdir(p)] *)
Definition os_mkdir (p : Path) : Py unit :=
  fun w =>
    match walk (files w) (start_of w (anchored p)) (removelast (parts p)) with
    | Raise e => (Raise e, w)
    | Return dir =>
        match lookup_node (files w) dir with
        | None => (Raise FileNotFoundError, w)
        | Some (File _) => (Raise NotADirectoryError, w)
        | Some Dir =>
            match last (parts p) with
            | None => (Raise FileExistsError, w)
            | Some name =>
                if is_dotdot name then (Raise FileExistsError, w)
                else
                  match lookup_node (files w) (dir ++ [name]) with
                  | Some _ => (Raise FileExistsError, w)
                  | None => set_files (<[dir ++ [name] := Dir]> (files w)) w
                  end
            end
        end
    end.

(** [p.is_dir()] *)
Definition is_dir (p : Path) : Py bool :=
  get (fun w =>
         match walk (files w) (start_of w (anchored p)) (parts p) with
         | Return key =>
             match lookup_node (files w) key with
             | Some Dir => true
             | _ => false
             end
         | Raise _ => false
         end).

Definition is_FileNotFoundError (e : exn) : bool :=
  match e with FileNotFoundError => true | _ => false end.

(** The [except OSError] branch of [Path.mkdir]. *)
Definition mkdir_exists (p : Path) (exist_ok : bool) (e : exn) : Py unit :=
  d <- is_dir p ;;
  if negb exist_ok || negb d then raise e else ret tt.

(** [p.mkdir(parents=False, exist_ok=exist_ok)] *)
Definition mkdir_leaf (p : Path) (exist_ok : bool) : Py unit :=
  try_except (os_mkdir p)
    (fun e => if is_FileNotFoundError e then raise e else mkdir_exists p exist_ok e).

(** [p.mkdir(parents=parents, exist_ok=exist_ok)], following pathlib:
    [os.mkdir] is tried first; when a parent is missing and [parents] is
    set, the parent is made in the same way and the directory is made
    again, without [parents].  The path is given by its components in
    reverse, so that its parent is the tail. *)
Fixpoint mkdir_rev (is_anchored : bool) (rparts : list str) (parents exist_ok : bool)
  : Py unit :=
  let p := mkPath is_anchored (rev rparts) in
  try_except (os_mkdir p)
    (fun e =>
       if is_FileNotFoundError e then
         match rparts with
         | [] => raise e                       (* self.parent == self *)
         | _ :: rparent =>
             if negb parents then raise e
             else
               mkdir_rev is_anchored rparent true true ;;
               mkdir_leaf p exist_ok
         end
       else mkdir_exists p exist_ok e).

Definition mkdir (p : Path) (parents exist_ok : bool) : Py unit :=
  mkdir_rev (anchored p) (rev (parts p)) parents exist_ok.

Definition ensure_reports_dir : Py unit :=
  info <- get PROJECT_INFO ;;
  mkdir (reports_directory info) true true.

(** *** read_contents *)

(** Text mode with the default [newline=None]: on input, ["\r\n"] and a
    lone ["\r"] are read as ["\n"]. *)
Fixpoint translate_newlines (s : str) : str :=
  match s with
  | [] => []
  | c :: s' =>
      if c =? CR then
        match s' with
        | c' :: s'' => if c' =? NL then NL :: translate_newlines s''
                       else NL :: translate_newlines s'
        | [] => [NL]
        end
      else c :: translate_newlines s'
  end.

(** The decoded contents of the file [fpath] names, as the operating
    system resolves the name.  A name with a NUL character in it is
    refused with ValueError before the file system is looked at.  Files
    that may not be read and files whose bytes are not UTF-8 are not
    among the nodes of the model, so the errors they give on reading do
    not occur here: the statements about reading are about files that the
    model reads. *)
Definition read_file (fpath : str) : Py str :=
  fun w =>
    if existsb (N.eqb 0) fpath then (Raise ValueError, w)
    else if truthy fpath then
      match walk (files w) (start_of w (startswith fpath [SLASH])) (split SLASH fpath) with
      | Raise e => (Raise e, w)
      | Return key =>
          match lookup_node (files w) key with
          | Some (File text) => (Return text, w)
          | Some Dir => (Raise IsADirectoryError, w)
          | None => (Raise FileNotFoundError, w)
          end
      end
    else (Raise FileNotFoundError, w).

(** [open(fpath, encoding="utf-8")], read in full: the text the stream
    delivers. *)
Definition open_text (fpath : str) : Py str :=
  text <- read_file fpath ;;
  ret (translate_newlines text).

(** [f.readlines()]: the lines of the text, each with the newline that
    ends it. *)
Fixpoint readlines (text : str) : list str :=
  match text with
  | [] => []
  | c :: text' =>
      if c =? NL then [c] :: readlines text'
      else match readlines text' with
           | [] => [[c]]
           | line :: lines => (c :: line) :: lines
           end
  end.

Definition read_contents (fpath : str) (strip_newline : bool) : Py str :=
  f_in <- open_text fpath ;;
  let contents := join [] (readlines f_in) in
  let contents := if strip_newline then rstrip [NL] contents else contents in
  ret contents.

(** *** format_messages *)

(** The default pattern, ["^$"]. *)
Definition default_success_pattern : re.pattern := re.Cat re.Bol re.Eol.

(** The text of the success notice; its first character is U+2714. *)
Definition NO_ISSUES : str := 10004 :: lit " No issues found.".

Definition format_messages (messages : str) (success_pattern : re.pattern) : Py unit :=
  if re.match_ success_pattern messages re.DOTALL
  then secho NO_ISSUES green
  else print messages.

(** *** ensure_pre_commit *)

Definition ensure_pre_commit (ctx : Context) : Py unit :=
  ctx_run ctx (lit "pre-commit install") true hide_both ;; ret tt.

(** *** print_header *)

Definition _HEADER_LEVEL_CHARACTERS : gmap Z char :=
  {[ 1%Z := 35; 2%Z := 61; 3%Z := 45 ]}.      (* "#", "=", "-" *)

(** [_HEADER_LEVEL_CHARACTERS[level]] *)
Definition header_level_character (level : Z) : Py char :=
  match _HEADER_LEVEL_CHARACTERS !! level with
  | Some c => ret c
  | None => raise (KeyError level)
  end.

(** [os.getenv(name, default)] *)
Definition getenv (name default_value : str) : Py str :=
  get (fun w => default default_value (environ w !! name)).

(** [shutil.get_terminal_size(fallback)] *)
Definition get_terminal_size (fallback : Z * Z) : Py (Z * Z) :=
  get (fun w => default fallback (terminal w)).

(** ["{:<fill>^<width>}".format(s)]: [s] centred in [width] columns, the
    odd column of padding going to the right. *)
Definition center (fill : char) (width : Z) (s : str) : str :=
  let total := Z.to_nat (width - Z.of_nat (List.length s)) in
  let left := Nat.div total 2 in
  repeat fill left ++ s ++ repeat fill (total - left)%nat.

(** The icon as the body of [print_header] uses it. *)
Definition spaced (icon : str) : str :=
  if truthy icon then icon ++ lit " " else icon.

(** The width [print_header] pads to. *)
Definition padding_length_of (icon : str) : Py Z :=
  circleci <- getenv (lit "CIRCLECI") [] ;;
  if truthy circleci then ret 80%Z
  else
    size <- get_terminal_size (80%Z, 20%Z) ;;
    ret (Z.max (size.1 - Z.of_nat (List.length icon) * 2) 0).

Definition print_header (text : str) (level : Z) (icon : str) : Py unit :=
  let icon := spaced icon in
  padding_character <- header_level_character level ;;
  padding_length <- padding_length_of icon ;;
  let text := if (level =? 1)%Z then upper text else text in
  print ([NL] ++ center padding_character padding_length
                   (lit " " ++ icon ++ text ++ lit " " ++ icon) ++ [NL]).

(** *** switch_python_version *)

(** The sort key: [list(map(int, value.split(".")))]. *)
Definition sort_key (value : str) : option (list Z) :=
  mapM py_int (split DOT value).

Definition quoted (s : str) : str := lit "'" ++ s ++ lit "'".

Definition found_notice (python_version : str) : str :=
  10004 :: lit " Found pyenv Python version '" ++ python_version ++ lit "'." ++ [NL].

Definition not_found_notice (version : str) : str :=
  10060 :: lit " No pyenv Python version matching Python " ++ version
        ++ lit " found." ++ [NL].

Definition guidance (python_versions : list str) : str :=
  lit "Available versions: " ++ join (lit ", ") (List.map quoted python_versions)
  ++ lit "." ++ [NL]
  ++ lit "See all installable versions with:" ++ [NL]
  ++ [9] ++ lit "pyenv install --list" ++ [NL]
  ++ lit "and install it with:" ++ [NL]
  ++ [9] ++ lit "pyenv install <PYTHON_VERSION>".

Definition switch_command (pyenv_python_version : str) : str :=
  lit "source deactivate; git clean -fxd .venv && pyenv local "
  ++ pyenv_python_version ++ lit " && poetry install".

(** The [for] loop: a later match replaces an earlier one. *)
Fixpoint scan (version : str) (python_versions : list str)
         (pyenv_python_version : option str) : Py (option str) :=
  match python_versions with
  | [] => ret pyenv_python_version
  | python_version :: rest =>
      if startswith python_version version then
        secho (found_notice python_version) green ;;
        scan version rest (Some python_version)
      else scan version rest pyenv_python_version
  end.

(** The non-empty lines of the answer of [pyenv versions --bare]. *)
Definition installed (stdout : str) : list str :=
  List.filter truthy (split NL stdout).

Definition sort_versions (versions : list str) : Py (list str) :=
  match sorted list_lt sort_key versions with
  | Some python_versions => ret python_versions
  | None => raise ValueError
  end.

(** The branch taken when no installed version was selected. *)
Definition not_found (version : str) (python_versions : list str) : Py unit :=
  secho (not_found_notice version) red ;;
  print (guidance python_versions) ;;
  raise (Exit None None).

Definition switch_python_version (ctx : Context) (version : str) : Py unit :=
  print_header (lit "Switching to Python " ++ version) 1 [128013] ;;
  stdout <- ctx_run ctx (lit "pyenv versions --bare") false hide_stdout ;;
  python_versions <- sort_versions (installed stdout) ;;
  pyenv_python_version <- scan version python_versions None ;;
  match pyenv_python_version with
  | Some selected =>
      if truthy selected then
        ctx_run ctx (switch_command selected) true hide_nothing ;;
        ret tt
      else not_found version python_versions
  | None => not_found version python_versions
  end.

(** ** The module as a whole: what can be called, and the worlds calls
    lead to *)

Inductive call :=
| call_ensure_reports_dir
| call_read_contents (fpath : str) (strip_newline : bool)
| call_format_messages (messages : str) (success_pattern : re.pattern)
| call_ensure_pre_commit (ctx : Context)
| call_print_header (text : str) (level : Z) (icon : str)
| call_switch_python_version (ctx : Context) (version : str).

(** The world a call leaves behind, whether it returns or raises. *)
Definition after (c : call) (w : World) : World :=
  match c with
  | call_ensure_reports_dir => (ensure_reports_dir w).2
  | call_read_contents fpath strip_newline => (read_contents fpath strip_newline w).2
  | call_format_messages messages success_pattern =>
      (format_messages messages success_pattern w).2
  | call_ensure_pre_commit ctx => (ensure_pre_commit ctx w).2
  | call_print_header text level icon => (print_header text level icon w).2
  | call_switch_python_version ctx version => (switch_python_version ctx version w).2
  end.

(** The world right after the module is loaded: [PROJECT_INFO] has just
    been constructed and nothing was printed. *)
Definition loaded (fs : gmap (list str) node) (dir : list str)
           (env : gmap str str) (term : option (Z * Z)) : World :=
  {| PROJECT_INFO := ProjectInfo_new; files := fs; cwd := dir;
     environ := env; terminal := term; trace := [] |}.

Inductive reachable : World -> Prop :=
| reachable_loaded fs dir env term : reachable (loaded fs dir env term)
| reachable_after c w : reachable w -> reachable (after c w).

(** ** Predicates used in the statements *)

(** An ASCII letter. *)
Definition isalpha (c : char) : bool :=
  ((65 <=? c) && (c <=? 90)) || ((97 <=? c) && (c <=? 122)).

(** A version string made of integers separated by dots: [int] reads
    every field of [value.split(".")]. *)
Definition dotted_integers (value : str) : bool :=
  forallb (fun field => bool_decide (is_Some (py_int field))) (split DOT value).

(** [x] is not after [y], for items that carry their keys. *)
Definition keyed_le {A K : Type} (lt : K -> K -> bool) (x y : K * A) : Prop :=
  lt y.1 x.1 = false.

(** [a] is not after [b], by their keys. *)
Definition item_le {A K : Type} (lt : K -> K -> bool) (key : A -> option K)
           (a b : A) : Prop :=
  match key a, key b with
  | Some ka, Some kb => lt kb ka = false
  | _, _ => False
  end.

(** [a] is not after [b] in the numeric order of the sort keys. *)
Definition key_le (a b : str) : Prop := item_le list_lt sort_key a b.

(** The CI indicator: [CIRCLECI] is set to a non-empty string. *)
Definition in_ci (w : World) : bool :=
  match environ w !! lit "CIRCLECI" with
  | Some value => truthy value
  | None => false
  end.

(** The detected number of columns, 80 when none is detected. *)
Definition columns (w : World) : Z :=
  match terminal w with
  | Some size => size.1
  | None => 80%Z
  end.

(** A computation that leaves [PROJECT_INFO] as it found it. *)
Definition keeps_info {A} (c : Py A) : Prop :=
  forall w, PROJECT_INFO (c w).2 = PROJECT_INFO w.

(** The world with some more events on its trace. *)
Definition logged (events : list event) (w : World) : World :=
  {| PROJECT_INFO := PROJECT_INFO w; files := files w; cwd := cwd w;
     environ := environ w; terminal := terminal w;
     trace := trace w ++ events |}.

(** The command that lists the installed versions. *)
Definition pyenv_versions : str := lit "pyenv versions --bare".

(** The installed versions that start with the requested one. *)
Definition matching (version : str) (python_versions : list str) : list str :=
  List.filter (fun python_version => startswith python_version version) python_versions.

Definition found_notices (version : str) (python_versions : list str) : list event :=
  List.map (fun python_version => Secho (found_notice python_version) green)
           (matching version python_versions).

(** ** Sample inputs *)

(** A world with an empty file system below the root, no environment
    variable and no terminal. *)
Definition bare_world : World := loaded ∅ [] ∅ None.

(** A project directory with two text files, one with Unix and one with
    DOS line ends, a terminal of 100 columns, and a regular file in the
    place of the reports directory. *)
Definition project_dir : list str := [lit "home"; lit "dev"; lit "project"].

Definition project_files : gmap (list str) node :=
  {[ [lit "home"] := Dir;
     [lit "home"; lit "dev"] := Dir;
     project_dir := Dir;
     project_dir ++ [lit "notes.txt"] := File (lit "line1" ++ [NL] ++ lit "line2" ++ [NL]);
     project_dir ++ [lit "dos.txt"] := File (lit "line1" ++ [CR; NL]) ]}.

Definition project_world : World :=
  loaded project_files project_dir ∅ (Some (100%Z, 40%Z)).


(** A context in which [pyenv versions --bare] prints [stdout] and every
    other command succeeds with no output. *)
Definition pyenv_prints (stdout : str) : Context :=
  {| answer := fun command =>
       if str_eqb command (lit "pyenv versions --bare") then Some stdout else Some [] |}.

Definition unlines (lines : list str) : str :=
  flat_map (fun line => line ++ [NL]) lines.


(** ** Predicates for the further properties *)

(** A computation that only adds entries to the file system. *)
Definition only_adds_files {A} (c : Py A) : Prop :=
  forall w, exists fs, (c w).2 = (set_files fs w).2 /\ files w ⊆ fs.



(** A pattern made of literal characters, [.], concatenation, alternation
    and star alone. *)
Fixpoint plain (p : re.pattern) : bool :=
  match p with
  | re.Bol | re.Eol => false
  | re.Cat p q | re.Alt p q => plain p && plain q
  | re.Star p => plain p
  | _ => true
  end.

(** * Properties *)

(** ** Matching: [ends] computes the meaning of a pattern *)

Section MatchingFacts.
Variable dotall : bool.
Variable s : str.

Lemma Matches_bounds p i j :
  re.Matches dotall s p i j -> (i <= j)%nat /\ ((i < j)%nat -> (j <= List.length s)%nat).
Proof.
  induction 1; try lia.
  - assert (i < List.length s)%nat by (apply nth_error_Some; congruence). lia.
  - assert (i < List.length s)%nat by (apply nth_error_Some; congruence). lia.
Qed.

Lemma star_ends_fuel once fuel1 : forall fuel2 i k,
  (fuel1 <= fuel2)%nat ->
  In k (re.star_ends fuel1 once i) -> In k (re.star_ends fuel2 once i).
Proof.
  induction fuel1 as [|fuel1 IH]; intros fuel2 i k Hle Hin.
  - destruct Hin as [<- | []]. destruct fuel2; left; reflexivity.
  - destruct fuel2 as [|fuel2]; [lia|].
    destruct Hin as [<- | Hin]; [left; reflexivity | right].
    apply in_flat_map in Hin as (j & Hj & Hk).
    apply in_flat_map. exists j. split; [exact Hj|].
    apply IH; [lia | exact Hk].
Qed.

Lemma star_ends_sound p
  (IHp : forall i j, In j (re.ends dotall s p i) -> re.Matches dotall s p i j) :
  forall fuel i k,
    In k (re.star_ends fuel (re.ends dotall s p) i) -> re.Matches dotall s (re.Star p) i k.
Proof.
  induction fuel as [|fuel IH]; intros i k Hin.
  - destruct Hin as [<- | []]. constructor.
  - destruct Hin as [<- | Hin]; [constructor|].
    apply in_flat_map in Hin as (j & Hj & Hk).
    apply List.filter_In in Hj as [Hj _].
    eapply re.M_StarS; [apply IHp; exact Hj | apply IH; exact Hk].
Qed.

Lemma ends_sound p : forall i j,
  In j (re.ends dotall s p i) -> re.Matches dotall s p i j.
Proof.
  induction p as [| c | | | | p IHp q IHq | p IHp q IHq | p IHp]; intros i j Hin; simpl in Hin.
  - destruct Hin as [<- | []]. constructor.
  - destruct (nth_error s i) as [c'|] eqn:E; [|contradiction].
    destruct (N.eqb_spec c' c) as [-> | _]; [|contradiction].
    destruct Hin as [<- | []]. constructor. exact E.
  - destruct (nth_error s i) as [c'|] eqn:E; [|contradiction].
    destruct (re.dot_accepts dotall c') eqn:D; [|contradiction].
    destruct Hin as [<- | []]. econstructor; eassumption.
  - destruct (Nat.eqb_spec i 0) as [-> | _]; [|contradiction].
    destruct Hin as [<- | []]. constructor.
  - destruct (re.at_eol s i) eqn:E; [|contradiction].
    destruct Hin as [<- | []]. constructor. exact E.
  - apply in_flat_map in Hin as (m & Hm & Hj).
    econstructor; [apply IHp | apply IHq]; eassumption.
  - apply in_app_or in Hin as [Hin | Hin].
    + apply re.M_AltL, IHp, Hin.
    + apply re.M_AltR, IHq, Hin.
  - eapply star_ends_sound; eassumption.
Qed.

Lemma ends_complete p i j :
  re.Matches dotall s p i j -> In j (re.ends dotall s p i).
Proof.
  induction 1 as [i | c i E | c i E D | | i E | p q i j k _ IH1 _ IH2
                  | p q i j _ IH | p q i j _ IH | p i | p i j k H1 IH1 H2 IH2]; simpl.
  - left; reflexivity.
  - rewrite E, N.eqb_refl. left; reflexivity.
  - rewrite E, D. left; reflexivity.
  - left; reflexivity.
  - rewrite E. left; reflexivity.
  - apply in_flat_map. exists j. split; assumption.
  - apply in_or_app. left; assumption.
  - apply in_or_app. right; assumption.
  - destruct (List.length s - i)%nat; left; reflexivity.
  - simpl in IH2.
    destruct (Matches_bounds _ _ _ H1) as [Hij Hbound].
    destruct (Nat.eq_dec i j) as [<- | Hne]; [exact IH2|].
    assert (Hlt : (i < j)%nat) by lia. specialize (Hbound Hlt).
    destruct (List.length s - i)%nat as [|fuel] eqn:F; [lia|].
    right. apply in_flat_map. exists j. split.
    + apply List.filter_In. split; [exact IH1 | apply Nat.ltb_lt; exact Hlt].
    + eapply star_ends_fuel; [|exact IH2]. lia.
Qed.

Lemma ends_spec p i j :
  In j (re.ends dotall s p i) <-> re.Matches dotall s p i j.
Proof. split; [apply ends_sound | apply ends_complete]. Qed.

Lemma match_spec p :
  re.match_ p s dotall = true <-> exists j, re.Matches dotall s p 0 j.
Proof.
  unfold re.match_. split.
  - destruct (re.ends dotall s p 0) as [|j l] eqn:E; [discriminate|].
    intros _. exists j. apply ends_sound. rewrite E. left; reflexivity.
  - intros [j Hj]. apply ends_complete in Hj.
    destruct (re.ends dotall s p 0); [contradiction | reflexivity].
Qed.

Lemma fullmatch_spec p :
  re.fullmatch p s dotall = true <-> re.Matches dotall s p 0 (List.length s).
Proof.
  unfold re.fullmatch. rewrite existsb_exists. split.
  - intros (j & Hj & E). apply Nat.eqb_eq in E. subst j. apply ends_sound, Hj.
  - intros H. exists (List.length s). split; [apply ends_complete, H | apply Nat.eqb_refl].
Qed.
End MatchingFacts.

(** ** format_messages *)

Lemma secho_is_not_print text fg text' w : secho text fg w <> print text' w.
Proof.
  intros H. apply (f_equal (fun r => trace r.2)) in H. simpl in H.
  apply app_inv_head in H. discriminate.
Qed.

Lemma default_success_pattern_match messages :
  re.match_ default_success_pattern messages re.DOTALL = true
  <-> messages = [] \/ messages = [NL].
Proof.
  unfold re.match_, default_success_pattern. simpl.
  rewrite app_nil_r. unfold re.at_eol.
  destruct messages as [|c [|d rest]]; simpl.
  - split; [left; reflexivity | reflexivity].
  - destruct (N.eqb_spec c NL) as [-> | Hne]; simpl.
    + split; [right; reflexivity | reflexivity].
    + split; [discriminate | intros [H | H]; [discriminate | congruence]].
  - split; [discriminate | intros [H | H]; discriminate].
Qed.

(** C1, as stated, fails: the pattern [some] does not match the whole of
    the message "some warning", only its beginning, and the success
    notice is emitted all the same. *)
Lemma format_messages_whole_message_counterexample :
  format_messages (lit "some warning") (re.literal (lit "some")) bare_world
  = secho NO_ISSUES green bare_world
  /\ ~ re.Matches re.DOTALL (lit "some warning") (re.literal (lit "some"))
        0 (List.length (lit "some warning")).
Proof.
  split; [reflexivity|].
  intros H. apply fullmatch_spec in H. vm_compute in H. discriminate.
Qed.

(** C1, amended: format_messages emits the success notice exactly when
    the pattern matches at the start of the message, that is, takes the
    message from position 0 to some position (with [.] also matching
    newlines); otherwise it prints the message as it is.  A pattern that
    matches the whole message is one such case.  With the default
    pattern, the empty message gives the success notice and "some warning"
    is printed. *)
Theorem format_messages_match_at_start messages success_pattern w :
  ( ((exists j, re.Matches re.DOTALL messages success_pattern 0 j)
     /\ format_messages messages success_pattern w = secho NO_ISSUES green w)
    \/
    ((~ exists j, re.Matches re.DOTALL messages success_pattern 0 j)
     /\ format_messages messages success_pattern w = print messages w) )
  /\ (re.Matches re.DOTALL messages success_pattern 0 (List.length messages) ->
      format_messages messages success_pattern w = secho NO_ISSUES green w)
  /\ trace (secho NO_ISSUES green w).2 = trace w ++ [Secho NO_ISSUES green]
  /\ trace (print messages w).2 = trace w ++ [Print messages]
  /\ format_messages [] default_success_pattern w = secho NO_ISSUES green w
  /\ format_messages (lit "some warning") default_success_pattern w
     = print (lit "some warning") w.
Proof.
  assert (Hcase : forall m p,
             re.match_ p m re.DOTALL = true ->
             format_messages m p w = secho NO_ISSUES green w).
  { intros m p E. unfold format_messages. rewrite E. reflexivity. }
  repeat split; try reflexivity.
  - destruct (re.match_ success_pattern messages re.DOTALL) eqn:E.
    + left. split; [apply match_spec; exact E | apply Hcase; exact E].
    + right. split.
      * intros H. apply match_spec in H. congruence.
      * unfold format_messages. rewrite E. reflexivity.
  - intros H. apply Hcase, match_spec. eexists; exact H.
Qed.

(** C9: with the default pattern the success notice is emitted for the
    message "\n", which is not empty, because [$] also holds just before
    a newline that ends the message; the empty message and "\n" are the
    only two messages the default pattern accepts. *)
Theorem format_messages_default_accepts_newline w :
  format_messages [NL] default_success_pattern w = secho NO_ISSUES green w
  /\ [NL] <> ([] : str)
  /\ re.at_eol [NL] 0 = true
  /\ re.Matches re.DOTALL [NL] default_success_pattern 0 0
  /\ forall messages,
       format_messages messages default_success_pattern w = secho NO_ISSUES green w
       <-> messages = [] \/ messages = [NL].
Proof.
  split; [reflexivity|]. split; [discriminate|]. split; [reflexivity|]. split.
  - apply ends_sound. vm_compute. left; reflexivity.
  - intros messages. rewrite <- default_success_pattern_match.
    unfold format_messages.
    destruct (re.match_ default_success_pattern messages re.DOTALL); split; intros H.
    + reflexivity.
    + reflexivity.
    + symmetry in H. apply secho_is_not_print in H. contradiction.
    + discriminate.
Qed.

(** ** print_header *)

Lemma header_level_characters_lookup level :
  _HEADER_LEVEL_CHARACTERS !! level
  = if (level =? 1)%Z then Some 35
    else if (level =? 2)%Z then Some 61
    else if (level =? 3)%Z then Some 45
    else None.
Proof.
  unfold _HEADER_LEVEL_CHARACTERS.
  destruct (Z.eqb_spec level 1) as [-> | H1]; [reflexivity|].
  rewrite lookup_insert_ne by congruence.
  destruct (Z.eqb_spec level 2) as [-> | H2]; [reflexivity|].
  rewrite lookup_insert_ne by congruence.
  destruct (Z.eqb_spec level 3) as [-> | H3]; [reflexivity|].
  apply lookup_singleton_ne. congruence.
Qed.

Lemma padding_length_of_spec icon w :
  padding_length_of icon w
  = (Return (if in_ci w then 80%Z
             else Z.max (columns w - 2 * Z.of_nat (List.length icon)) 0), w).
Proof.
  unfold padding_length_of, bind, getenv, get_terminal_size, get, in_ci, columns, ret.
  destruct (environ w !! lit "CIRCLECI") as [value|]; simpl.
  - destruct (truthy value); [reflexivity|].
    destruct (terminal w); simpl; do 2 f_equal; lia.
  - destruct (terminal w); simpl; do 2 f_equal; lia.
Qed.

Lemma print_header_known_level text level icon w fill :
  _HEADER_LEVEL_CHARACTERS !! level = Some fill ->
  print_header text level icon w
  = print ([NL] ++ center fill
                     (if in_ci w then 80%Z
                      else Z.max (columns w - 2 * Z.of_nat (List.length (spaced icon))) 0)
                     (lit " " ++ spaced icon
                      ++ (if (level =? 1)%Z then upper text else text)
                      ++ lit " " ++ spaced icon)
           ++ [NL]) w.
Proof.
  intros Hfill. unfold print_header, header_level_character.
  rewrite Hfill. unfold bind at 1. unfold ret at 1.
  unfold bind. rewrite padding_length_of_spec. reflexivity.
Qed.

Lemma print_header_unknown_level text level icon w :
  _HEADER_LEVEL_CHARACTERS !! level = None ->
  print_header text level icon w = (Raise (KeyError level), w).
Proof.
  intros Hnone. unfold print_header, header_level_character.
  rewrite Hnone. reflexivity.
Qed.

(** C5: the width print_header pads to is 80 when the CI indicator
    variable is set to a non-empty string; otherwise it is the detected
    number of terminal columns (80 when none is detected) minus twice the
    length of the icon string, and never below 0.  The icon string is the
    one the function holds at that point: the icon given, followed by one
    space when it is not empty. *)
Theorem print_header_target_width text level icon w fill :
  _HEADER_LEVEL_CHARACTERS !! level = Some fill ->
  let width :=
    if in_ci w then 80%Z
    else Z.max (columns w - 2 * Z.of_nat (List.length (spaced icon))) 0 in
  padding_length_of (spaced icon) w = (Return width, w)
  /\ print_header text level icon w
     = print ([NL] ++ center fill width
                        (lit " " ++ spaced icon
                         ++ (if (level =? 1)%Z then upper text else text)
                         ++ lit " " ++ spaced icon)
              ++ [NL]) w
  /\ (0 <= width)%Z
  /\ in_ci w = truthy (default [] (environ w !! lit "CIRCLECI"))
  /\ columns w = (default (80%Z, 20%Z) (terminal w)).1
  /\ List.length (spaced icon)
     = (if truthy icon then S (List.length icon) else 0)%nat.
Proof.
  intros Hfill width. split; [apply padding_length_of_spec|].
  split; [apply print_header_known_level; exact Hfill|].
  split; [subst width; destruct (in_ci w); lia|].
  split; [unfold in_ci; destruct (environ w !! lit "CIRCLECI"); reflexivity|].
  split; [unfold columns; destruct (terminal w); reflexivity|].
  unfold spaced. destruct icon as [|c icon]; [reflexivity|].
  simpl. rewrite length_app. simpl. lia.
Qed.

Lemma print_header_target_width_witness :
  _HEADER_LEVEL_CHARACTERS !! 2%Z = Some 61
  /\ padding_length_of (spaced [128013]) project_world = (Return 96%Z, project_world).
Proof.
  split; [reflexivity|].
  exact (proj1 (print_header_target_width [] 2 [128013] project_world 61 eq_refl)).
Defined.

Lemma center_shape fill width s :
  exists left right,
    center fill width s = repeat fill left ++ s ++ repeat fill right
    /\ (left <= right <= S left)%nat
    /\ Z.of_nat (List.length (center fill width s)) = Z.max width (Z.of_nat (List.length s)).
Proof.
  unfold center.
  set (total := Z.to_nat (width - Z.of_nat (List.length s))).
  exists (Nat.div total 2), (total - Nat.div total 2)%nat.
  pose proof (Nat.div_mod_eq total 2) as Hdiv.
  pose proof (Nat.mod_upper_bound total 2) as Hmod.
  split; [reflexivity|]. split; [lia|].
  rewrite !length_app, !repeat_length. subst total. lia.
Qed.

Lemma center_borders fill width s :
  (Z.of_nat (List.length s) + 2 <= width)%Z ->
  exists left right,
    center fill width s = (fill :: repeat fill left) ++ s ++ repeat fill right ++ [fill].
Proof.
  intros Hroom.
  destruct (center_shape fill width s) as (left & right & Heq & Hbalance & Hlen).
  rewrite Heq, !length_app, !repeat_length in Hlen.
  destruct left as [|left]; [lia|]. destruct right as [|right]; [lia|].
  exists left, right. rewrite Heq. cbn [repeat].
  rewrite (repeat_cons right fill). reflexivity.
Qed.

Lemma header_level_character_known level w fill :
  _HEADER_LEVEL_CHARACTERS !! level = Some fill ->
  header_level_character level w = (Return fill, w).
Proof. intros H. unfold header_level_character. rewrite H. reflexivity. Qed.

Lemma header_level_character_unknown level w :
  _HEADER_LEVEL_CHARACTERS !! level = None ->
  header_level_character level w = (Raise (KeyError level), w).
Proof. intros H. unfold header_level_character. rewrite H. reflexivity. Qed.

(** C6: print_header looks the border character up first: "#" at level
    1, "=" at level 2 and "-" at level 3, and it is the character the
    printed line is padded with on both sides; at any other level the
    lookup raises KeyError and nothing is printed. *)
Theorem print_header_border_character text level icon w :
  let width :=
    if in_ci w then 80%Z
    else Z.max (columns w - 2 * Z.of_nat (List.length (spaced icon))) 0 in
  let content := fun shown : str => lit " " ++ spaced icon ++ shown ++ lit " " ++ spaced icon in
  lit "#=-" = [35; 61; 45]
  /\ ( (level = 1%Z
        /\ header_level_character level w = (Return 35, w)
        /\ print_header text level icon w
           = print ([NL] ++ center 35 width (content (upper text)) ++ [NL]) w)
       \/ (level = 2%Z
           /\ header_level_character level w = (Return 61, w)
           /\ print_header text level icon w
              = print ([NL] ++ center 61 width (content text) ++ [NL]) w)
       \/ (level = 3%Z
           /\ header_level_character level w = (Return 45, w)
           /\ print_header text level icon w
              = print ([NL] ++ center 45 width (content text) ++ [NL]) w)
       \/ (level <> 1%Z /\ level <> 2%Z /\ level <> 3%Z
           /\ header_level_character level w = (Raise (KeyError level), w)
           /\ print_header text level icon w = (Raise (KeyError level), w)) )
  /\ (forall fill shown,
        (Z.of_nat (List.length (content shown)) + 2 <= width)%Z ->
        exists left right,
          center fill width (content shown)
          = (fill :: repeat fill left) ++ content shown ++ repeat fill right ++ [fill])
  /\ (forall line, print line w = (Return tt, (print line w).2)
                   /\ trace (print line w).2 = trace w ++ [Print line]).
Proof.
  intros width content.
  split; [reflexivity|]. split; [|split; [|intros line; split; reflexivity]].
  - pose proof (header_level_characters_lookup level) as Hlookup.
    destruct (Z.eqb_spec level 1) as [H1 | H1].
    { left. split; [exact H1|].
      split; [apply header_level_character_known; exact Hlookup|].
      rewrite (print_header_known_level text level icon w 35 Hlookup).
      subst level. reflexivity. }
    destruct (Z.eqb_spec level 2) as [H2 | H2].
    { right; left. split; [exact H2|].
      split; [apply header_level_character_known; exact Hlookup|].
      rewrite (print_header_known_level text level icon w 61 Hlookup).
      subst level. reflexivity. }
    destruct (Z.eqb_spec level 3) as [H3 | H3].
    { right; right; left. split; [exact H3|].
      split; [apply header_level_character_known; exact Hlookup|].
      rewrite (print_header_known_level text level icon w 45 Hlookup).
      subst level. reflexivity. }
    right; right; right. repeat split; try assumption.
    + apply header_level_character_unknown. exact Hlookup.
    + apply print_header_unknown_level. exact Hlookup.
  - intros fill shown Hroom. apply center_borders. exact Hroom.
Qed.

(** ** ProjectInfo *)

Section KeepsInfo.
Context {A B : Type}.

Lemma keeps_ret (a : A) : keeps_info (ret a).
Proof. intros w. reflexivity. Qed.

Lemma keeps_raise e : keeps_info (@raise A e).
Proof. intros w. reflexivity. Qed.

Lemma keeps_get (f : World -> A) : keeps_info (get f).
Proof. intros w. reflexivity. Qed.

Lemma keeps_bind (c : Py A) (k : A -> Py B) :
  keeps_info c -> (forall a, keeps_info (k a)) -> keeps_info (bind c k).
Proof.
  intros Hc Hk w. unfold bind. specialize (Hc w).
  destruct (c w) as [[a | e] w']; simpl in *.
  - rewrite Hk. exact Hc.
  - exact Hc.
Qed.

Lemma keeps_try_except (c : Py A) (handler : exn -> Py A) :
  keeps_info c -> (forall e, keeps_info (handler e)) -> keeps_info (try_except c handler).
Proof.
  intros Hc Hh w. unfold try_except. specialize (Hc w).
  destruct (c w) as [[a | e] w']; simpl in *.
  - exact Hc.
  - rewrite Hh. exact Hc.
Qed.
End KeepsInfo.

Lemma keeps_emit e : keeps_info (emit e).
Proof. intros w. reflexivity. Qed.

Lemma keeps_set_files fs : keeps_info (set_files fs).
Proof. intros w. reflexivity. Qed.

Ltac keeps_step :=
  first
    [ apply keeps_ret | apply keeps_raise | apply keeps_get | apply keeps_emit
    | apply keeps_set_files
    | apply keeps_bind; [| intros ?]
    | apply keeps_try_except; [| intros ?]
    | match goal with
      | |- keeps_info (match ?x with _ => _ end) => destruct x
      end ].

Lemma keeps_ctx_run ctx command pty h : keeps_info (ctx_run ctx command pty h).
Proof. unfold ctx_run. repeat keeps_step. Qed.

Lemma keeps_os_mkdir p : keeps_info (os_mkdir p).
Proof.
  intros w. unfold os_mkdir.
  repeat match goal with
         | |- context [match ?x with _ => _ end] => destruct x
         end; reflexivity.
Qed.

Lemma keeps_mkdir_exists p exist_ok e : keeps_info (mkdir_exists p exist_ok e).
Proof. unfold mkdir_exists, is_dir. repeat keeps_step. Qed.

Lemma keeps_mkdir_leaf p exist_ok : keeps_info (mkdir_leaf p exist_ok).
Proof.
  unfold mkdir_leaf. apply keeps_try_except; [apply keeps_os_mkdir|].
  intros e. destruct (is_FileNotFoundError e);
    [apply keeps_raise | apply keeps_mkdir_exists].
Qed.

Lemma keeps_mkdir_rev is_anchored rparts : forall parents exist_ok,
  keeps_info (mkdir_rev is_anchored rparts parents exist_ok).
Proof.
  induction rparts as [|name rparent IH]; intros parents exist_ok; simpl;
    (apply keeps_try_except; [apply keeps_os_mkdir|]); intros e;
    destruct (is_FileNotFoundError e);
    try apply keeps_raise; try apply keeps_mkdir_exists.
  destruct (negb parents); [apply keeps_raise|].
  apply keeps_bind; [apply IH | intros _; apply keeps_mkdir_leaf].
Qed.

Lemma keeps_ensure_reports_dir : keeps_info ensure_reports_dir.
Proof.
  unfold ensure_reports_dir. apply keeps_bind; [apply keeps_get|].
  intros info. apply keeps_mkdir_rev.
Qed.

Lemma keeps_read_file fpath : keeps_info (read_file fpath).
Proof.
  intros w. unfold read_file.
  repeat match goal with
         | |- context [match ?x with _ => _ end] => destruct x
         end; reflexivity.
Qed.

Lemma keeps_read_contents fpath strip_newline :
  keeps_info (read_contents fpath strip_newline).
Proof.
  unfold read_contents, open_text.
  repeat first [apply keeps_read_file | keeps_step].
Qed.

Lemma keeps_format_messages messages success_pattern :
  keeps_info (format_messages messages success_pattern).
Proof. unfold format_messages, secho, print. repeat keeps_step. Qed.

Lemma keeps_print_header text level icon : keeps_info (print_header text level icon).
Proof.
  unfold print_header, header_level_character, padding_length_of, getenv,
    get_terminal_size, print.
  repeat keeps_step.
Qed.

Lemma keeps_scan version python_versions : forall current,
  keeps_info (scan version python_versions current).
Proof.
  induction python_versions as [|v rest IH]; intros current; simpl.
  - apply keeps_ret.
  - destruct (startswith v version); [|apply IH].
    apply keeps_bind; [apply keeps_emit | intros _; apply IH].
Qed.

Lemma keeps_not_found version python_versions :
  keeps_info (not_found version python_versions).
Proof. unfold not_found, secho, print. repeat keeps_step. Qed.

Lemma keeps_switch_python_version ctx version :
  keeps_info (switch_python_version ctx version).
Proof.
  unfold switch_python_version, sort_versions.
  repeat first [ apply keeps_print_header | apply keeps_ctx_run | apply keeps_scan
               | apply keeps_not_found | keeps_step ].
Qed.

Lemma after_keeps_info c w : PROJECT_INFO (after c w) = PROJECT_INFO w.
Proof.
  destruct c; simpl.
  - apply keeps_ensure_reports_dir.
  - apply keeps_read_contents.
  - apply keeps_format_messages.
  - unfold ensure_pre_commit.
    apply (keeps_bind _ _ (keeps_ctx_run _ _ _ _) (fun _ => keeps_ret tt)).
  - apply keeps_print_header.
  - apply keeps_switch_python_version.
Qed.

Lemma str_eqb_refl a : str_eqb a a = true.
Proof. induction a as [|c a IH]; simpl; [reflexivity | rewrite N.eqb_refl; exact IH]. Qed.

Lemma is_prefix_app a b : is_prefix a (a ++ b) = true.
Proof.
  induction a as [|x a IH]; simpl; [reflexivity | rewrite str_eqb_refl; exact IH].
Qed.

(** Joining a relative name to a path gives a path below it. *)
Lemma truediv_is_relative_to p name :
  anchored (Path_of name) = false -> is_relative_to (truediv p name) p = true.
Proof.
  intros Hrel. unfold truediv, is_relative_to. rewrite Hrel. simpl.
  rewrite is_prefix_app. destruct (anchored p); reflexivity.
Qed.

(** C7: in every world that calls of the module lead to from the moment
    it is loaded, PROJECT_INFO is the record that was constructed then,
    its unit and integration test directories lie below its tests
    directory, and no call changes it. *)
Theorem project_info_invariant w :
  reachable w ->
  PROJECT_INFO w = ProjectInfo_new
  /\ is_relative_to (unit_tests_directory (PROJECT_INFO w))
                    (tests_directory (PROJECT_INFO w)) = true
  /\ is_relative_to (integration_tests_directory (PROJECT_INFO w))
                    (tests_directory (PROJECT_INFO w)) = true
  /\ forall c, PROJECT_INFO (after c w) = PROJECT_INFO w.
Proof.
  intros Hreach.
  assert (Hinfo : PROJECT_INFO w = ProjectInfo_new).
  { induction Hreach as [fs dir env term | c w _ IH]; [reflexivity|].
    rewrite after_keeps_info. exact IH. }
  split; [exact Hinfo|]. rewrite Hinfo.
  split; [apply truediv_is_relative_to; reflexivity|].
  split; [apply truediv_is_relative_to; reflexivity|].
  intros c. rewrite after_keeps_info. exact Hinfo.
Qed.

Lemma project_info_invariant_witness :
  reachable (after call_ensure_reports_dir project_world)
  /\ PROJECT_INFO (after call_ensure_reports_dir project_world) = ProjectInfo_new.
Proof.
  assert (H : reachable (after call_ensure_reports_dir project_world)).
  { apply reachable_after. apply reachable_loaded. }
  split; [exact H|].
  exact (proj1 (project_info_invariant _ H)).
Defined.

(** ** ensure_reports_dir *)

Lemma lookup_node_snoc fs dir name : lookup_node fs (dir ++ [name]) = fs !! (dir ++ [name]).
Proof. destruct dir; reflexivity. Qed.












(** ** read_contents *)

Lemma join_nil_concat items : join [] items = concat items.
Proof.
  induction items as [|x [|y rest] IH]; [reflexivity | |].
  - simpl. rewrite app_nil_r. reflexivity.
  - change (join [] (x :: y :: rest)) with (x ++ [] ++ join [] (y :: rest)).
    rewrite IH. reflexivity.
Qed.

(** Putting the lines together again gives the text back. *)
Lemma concat_readlines text : concat (readlines text) = text.
Proof.
  induction text as [|c text IH]; [reflexivity|].
  simpl. destruct (c =? NL).
  - simpl. rewrite IH. reflexivity.
  - destruct (readlines text) as [|line lines].
    + simpl in *. rewrite <- IH. reflexivity.
    + simpl in *. rewrite IH. reflexivity.
Qed.

Lemma lstrip_by_spec p s :
  exists dropped,
    s = dropped ++ lstrip_by p s
    /\ Forall (fun c => p c = true) dropped
    /\ match lstrip_by p s with [] => True | c :: _ => p c = false end.
Proof.
  induction s as [|c s (dropped & Heq & Hall & Hhead)].
  - exists []. repeat split. constructor.
  - simpl. destruct (p c) eqn:Hc.
    + exists (c :: dropped). split; [simpl; congruence|].
      split; [constructor; assumption | exact Hhead].
    + exists []. repeat split; [constructor | exact Hc].
Qed.

Lemma all_newlines l :
  Forall (fun c => existsb (N.eqb c) [NL] = true) l -> l = repeat NL (List.length l).
Proof.
  induction 1 as [|c l Hc _ IH]; [reflexivity|].
  simpl in *. rewrite <- IH.
  destruct (N.eqb_spec c NL) as [-> | _]; [reflexivity | discriminate].
Qed.

(** [rstrip("\n")] removes the newlines at the end, all of them and
    nothing else. *)
Lemma rstrip_newline_spec s :
  exists k,
    s = rstrip [NL] s ++ repeat NL k /\ last (rstrip [NL] s) <> Some NL.
Proof.
  unfold rstrip, rstrip_by.
  destruct (lstrip_by_spec (fun c => existsb (N.eqb c) [NL]) (rev s))
    as (dropped & Heq & Hall & Hhead).
  exists (List.length dropped). split.
  - apply (f_equal (@rev char)) in Heq. rewrite rev_involutive, rev_app_distr in Heq.
    rewrite Heq at 1. f_equal.
    rewrite (all_newlines dropped Hall).
    rewrite rev_repeat, repeat_length. reflexivity.
  - destruct (lstrip_by _ (rev s)) as [|c rest]; [simpl; discriminate|].
    simpl rev. rewrite last_snoc. intros [= ->]. simpl in Hhead. discriminate.
Qed.

Lemma translate_newlines_no_cr text :
  ~ In CR text -> translate_newlines text = text.
Proof.
  induction text as [|c text IH]; [reflexivity|].
  intros Hno. simpl.
  destruct (N.eqb_spec c CR) as [-> | _]; [exfalso; apply Hno; left; reflexivity|].
  rewrite IH; [reflexivity|]. intros H. apply Hno. right. exact H.
Qed.

Lemma read_contents_unfold fpath strip_newline w text :
  read_file fpath w = (Return text, w) ->
  read_contents fpath strip_newline w
  = (Return (if strip_newline then rstrip [NL] (translate_newlines text)
             else translate_newlines text), w).
Proof.
  intros Hfile. unfold read_contents, open_text, bind. rewrite Hfile.
  unfold ret. rewrite join_nil_concat, concat_readlines. reflexivity.
Qed.

(** C4, as stated, fails: a file that ends its line with "\r\n" is
    returned with "\n" in its place, also when nothing is to be stripped. *)
Lemma read_contents_unchanged_counterexample :
  read_file (lit "dos.txt") project_world = (Return (lit "line1" ++ [CR; NL]), project_world)
  /\ read_contents (lit "dos.txt") false project_world
     = (Return (lit "line1" ++ [NL]), project_world)
  /\ lit "line1" ++ [NL] <> lit "line1" ++ [CR; NL].
Proof.
  split; [vm_compute; reflexivity|].
  split; [vm_compute; reflexivity | discriminate].
Qed.

(** C4, amended: read_contents reads the file as text with universal
    newlines, so that each "\r\n" and each lone "\r" of the file arrives
    as "\n" and a file without "\r" arrives as it is.  With the flag
    false it returns that text unchanged; with the flag true it returns
    that text without the newlines at its end, all of them, and with
    nothing else removed.  A file holding "line1\nline2\n" gives
    "line1\nline2" with the flag true and "line1\nline2\n" with it
    false. *)
Theorem read_contents_strips_trailing_newlines w fpath text :
  read_file fpath w = (Return text, w) ->
  let delivered := translate_newlines text in
  read_contents fpath false w = (Return delivered, w)
  /\ (exists stripped k,
        read_contents fpath true w = (Return stripped, w)
        /\ delivered = stripped ++ repeat NL k
        /\ last stripped <> Some NL)
  /\ (~ In CR text -> delivered = text)
  /\ read_contents (lit "notes.txt") true project_world
     = (Return (lit "line1" ++ [NL] ++ lit "line2"), project_world)
  /\ read_contents (lit "notes.txt") false project_world
     = (Return (lit "line1" ++ [NL] ++ lit "line2" ++ [NL]), project_world).
Proof.
  intros Hfile delivered.
  split; [apply (read_contents_unfold fpath false w text Hfile)|].
  split.
  { destruct (rstrip_newline_spec delivered) as (k & Heq & Hlast).
    exists (rstrip [NL] delivered), k.
    split; [apply (read_contents_unfold fpath true w text Hfile)|].
    split; assumption. }
  split; [apply translate_newlines_no_cr|].
  split; vm_compute; reflexivity.
Qed.

Lemma read_contents_strips_trailing_newlines_witness :
  read_file (lit "notes.txt") project_world
  = (Return (lit "line1" ++ [NL] ++ lit "line2" ++ [NL]), project_world)
  /\ read_contents (lit "notes.txt") false project_world
     = (Return (translate_newlines (lit "line1" ++ [NL] ++ lit "line2" ++ [NL])),
        project_world).
Proof.
  assert (H : read_file (lit "notes.txt") project_world
              = (Return (lit "line1" ++ [NL] ++ lit "line2" ++ [NL]), project_world))
    by (vm_compute; reflexivity).
  split; [exact H|].
  exact (proj1 (read_contents_strips_trailing_newlines _ _ _ H)).
Defined.

(** ** switch_python_version *)

(** *** The order of the sort keys *)

Lemma list_lt_irrefl a : list_lt a a = false.
Proof.
  induction a as [|x a IH]; [reflexivity|].
  simpl. rewrite Z.eqb_refl. exact IH.
Qed.

Lemma list_lt_asym a : forall b, list_lt a b = true -> list_lt b a = false.
Proof.
  induction a as [|x a IH]; intros [|y b] H; simpl in *; try congruence.
  destruct (Z.eqb_spec x y) as [-> | Hne].
  - rewrite Z.eqb_refl. apply IH. exact H.
  - destruct (Z.eqb_spec y x) as [-> | _]; [congruence|].
    apply Z.ltb_lt in H. apply Z.ltb_ge. lia.
Qed.

Lemma list_le_trans a : forall b c,
  list_lt b a = false -> list_lt c b = false -> list_lt c a = false.
Proof.
  induction a as [|x a IH]; intros [|y b] [|z c] Hab Hbc; simpl in *;
    try congruence.
  destruct (Z.eqb_spec y x) as [-> | Hyx].
  - destruct (Z.eqb_spec z x) as [-> | Hzx]; [eapply IH; eassumption | exact Hbc].
  - apply Z.ltb_ge in Hab.
    destruct (Z.eqb_spec z y) as [-> | Hzy].
    + destruct (Z.eqb_spec y x); [congruence | apply Z.ltb_ge; lia].
    + apply Z.ltb_ge in Hbc.
      destruct (Z.eqb_spec z x); [lia | apply Z.ltb_ge; lia].
Qed.

(** *** The sort *)

Section SortedFacts.
Context {A K : Type} (lt : K -> K -> bool).
Hypothesis lt_asym : forall a b, lt a b = true -> lt b a = false.
Hypothesis le_trans : forall a b c, lt b a = false -> lt c b = false -> lt c a = false.

Lemma insert_keyed_perm (x : K * A) l : Permutation (insert_keyed lt x l) (x :: l).
Proof.
  induction l as [|y l IH]; simpl; [reflexivity|].
  destruct (lt y.1 x.1); [|reflexivity].
  rewrite IH. apply perm_swap.
Qed.

Lemma sort_keyed_perm (l : list (K * A)) : Permutation (sort_keyed lt l) l.
Proof.
  induction l as [|x l IH]; simpl; [reflexivity|].
  rewrite insert_keyed_perm. constructor. exact IH.
Qed.

Lemma insert_keyed_sorted (x : K * A) l :
  StronglySorted (keyed_le lt) l -> StronglySorted (keyed_le lt) (insert_keyed lt x l).
Proof.
  induction 1 as [|y l Hsorted IH Hall]; simpl.
  - constructor; constructor.
  - destruct (lt y.1 x.1) eqn:Hyx.
    + constructor; [exact IH|].
      rewrite List.Forall_forall. intros z Hz.
      apply (Permutation_in _ (insert_keyed_perm x l)) in Hz.
      destruct Hz as [<- | Hz].
      * unfold keyed_le. apply lt_asym. exact Hyx.
      * rewrite List.Forall_forall in Hall. apply Hall. exact Hz.
    + constructor; [constructor; assumption|].
      constructor; [exact Hyx|].
      rewrite List.Forall_forall in *. intros z Hz. unfold keyed_le.
      eapply le_trans; [exact Hyx | apply Hall; exact Hz].
Qed.

Lemma sort_keyed_sorted (l : list (K * A)) :
  StronglySorted (keyed_le lt) (sort_keyed lt l).
Proof.
  induction l as [|x l IH]; simpl; [constructor | apply insert_keyed_sorted, IH].
Qed.

Variable key : A -> option K.

Lemma decorate_Some items decorated :
  decorate key items = Some decorated ->
  List.map snd decorated = items
  /\ Forall (fun kx => key kx.2 = Some kx.1) decorated.
Proof.
  revert decorated. induction items as [|x items IH]; intros decorated H; simpl in H.
  - injection H as <-. split; constructor.
  - destruct (key x) as [k|] eqn:Hk; [|discriminate].
    destruct (decorate key items) as [rest|]; [|discriminate].
    injection H as <-. destruct (IH rest eq_refl) as [Hmap Hall].
    split; [simpl; congruence | constructor; assumption].
Qed.

Lemma decorate_defined items :
  Forall (fun x => is_Some (key x)) items <-> is_Some (decorate key items).
Proof.
  induction items as [|x items IH]; simpl.
  - split; [intros _; eexists; reflexivity | constructor].
  - split.
    + intros H. inversion H as [|? ? [k Hk] Hrest]; subst.
      rewrite Hk. apply IH in Hrest as [rest ->]. eexists; reflexivity.
    + intros [d H]. destruct (key x) as [k|] eqn:Hk; [|discriminate].
      destruct (decorate key items) as [rest|] eqn:Hd; [|discriminate].
      constructor; [exists k; exact Hk | apply IH; eexists; reflexivity].
Qed.

Lemma sorted_Some items python_versions :
  sorted lt key items = Some python_versions ->
  Permutation python_versions items
  /\ StronglySorted (item_le lt key) python_versions.
Proof.
  unfold sorted. destruct (decorate key items) as [decorated|] eqn:Hd; [|discriminate].
  intros [= <-]. destruct (decorate_Some _ _ Hd) as [Hmap Hkeys].
  split.
  - rewrite <- Hmap. apply Permutation_map, sort_keyed_perm.
  - assert (Hkeys' : Forall (fun kx => key kx.2 = Some kx.1) (sort_keyed lt decorated)).
    { rewrite List.Forall_forall in *. intros kx Hin. apply Hkeys.
      apply (Permutation_in _ (sort_keyed_perm decorated)). exact Hin. }
    pose proof (sort_keyed_sorted decorated) as Hsorted.
    induction Hsorted as [|kx l _ IH Hall]; simpl; [constructor|].
    inversion Hkeys' as [|? ? Hkx Hrest]; subst.
    constructor; [apply IH; exact Hrest|].
    rewrite List.Forall_forall in *. intros b Hb.
    apply in_map_iff in Hb as (ky & <- & Hky).
    unfold item_le. rewrite Hkx, (Hrest ky Hky). apply Hall. exact Hky.
Qed.

Lemma sorted_defined items :
  Forall (fun x => is_Some (key x)) items <-> is_Some (sorted lt key items).
Proof.
  rewrite decorate_defined. unfold sorted.
  destruct (decorate key items); simpl; split; intros [x H]; try discriminate;
    eexists; reflexivity.
Qed.
End SortedFacts.

(** *** The task, step by step *)

Lemma emit_logged e w : emit e w = (Return tt, logged [e] w).
Proof. reflexivity. Qed.

Lemma logged_logged a b w : logged b (logged a w) = logged (a ++ b) w.
Proof. unfold logged. simpl. rewrite app_assoc. reflexivity. Qed.

Lemma logged_nil w : logged [] w = w.
Proof. destruct w. unfold logged. simpl. rewrite app_nil_r. reflexivity. Qed.

Lemma print_header_level_1 text icon w :
  print_header text 1 icon w = (Return tt, (print_header text 1 icon w).2).
Proof. rewrite (print_header_known_level text 1 icon w 35 eq_refl). reflexivity. Qed.

Lemma scan_spec version python_versions : forall current w,
  scan version python_versions current w
  = (Return match last (matching version python_versions) with
            | Some selected => Some selected
            | None => current
            end,
     logged (found_notices version python_versions) w).
Proof.
  unfold found_notices, matching.
  induction python_versions as [|v rest IH]; intros current w; simpl.
  - rewrite logged_nil. reflexivity.
  - destruct (startswith v version).
    + unfold bind, secho. rewrite emit_logged, IH, logged_logged.
      simpl. rewrite last_cons.
      destruct (last (List.filter _ rest)); reflexivity.
    + apply IH.
Qed.

Lemma ctx_run_spec ctx command pty h w :
  ctx_run ctx command pty h w
  = (match answer ctx command with
     | Some out => Return out
     | None => Raise UnexpectedExit
     end, logged [Run command pty h] w).
Proof.
  unfold ctx_run, bind. rewrite emit_logged.
  destruct (answer ctx command); reflexivity.
Qed.

(** What the task does once the list of installed versions is known. *)
Lemma switch_python_version_unfold ctx version w stdout :
  answer ctx pyenv_versions = Some stdout ->
  switch_python_version ctx version w
  = let w1 := logged [Run pyenv_versions false hide_stdout]
                     (print_header (lit "Switching to Python " ++ version) 1 [128013] w).2 in
    match sorted list_lt sort_key (installed stdout) with
    | None => (Raise ValueError, w1)
    | Some python_versions =>
        let w2 := logged (found_notices version python_versions) w1 in
        match last (matching version python_versions) with
        | Some selected =>
            if truthy selected then
              (match answer ctx (switch_command selected) with
               | Some _ => Return tt
               | None => Raise UnexpectedExit
               end,
               logged [Run (switch_command selected) true hide_nothing] w2)
            else
              (Raise (Exit None None),
               logged [Secho (not_found_notice version) red;
                       Print (guidance python_versions)] w2)
        | None =>
            (Raise (Exit None None),
             logged [Secho (not_found_notice version) red;
                     Print (guidance python_versions)] w2)
        end
    end.
Proof.
  intros Hanswer. unfold switch_python_version.
  unfold bind at 1. rewrite print_header_level_1.
  set (w0 := (print_header (lit "Switching to Python " ++ version) 1 [128013] w).2).
  unfold bind at 1. rewrite ctx_run_spec.
  change (lit "pyenv versions --bare") with pyenv_versions. rewrite Hanswer.
  cbv zeta. unfold bind at 1. unfold sort_versions.
  destruct (sorted list_lt sort_key (installed stdout)) as [python_versions|];
    [|reflexivity].
  unfold ret at 1. unfold bind at 1. rewrite scan_spec.
  assert (Hnot_found : forall w',
             not_found version python_versions w'
             = (Raise (Exit None None),
                logged [Secho (not_found_notice version) red;
                        Print (guidance python_versions)] w')).
  { intros w'. unfold not_found, bind, secho, print.
    rewrite !emit_logged, logged_logged. reflexivity. }
  destruct (last (matching version python_versions)) as [selected|];
    [|apply Hnot_found].
  destruct (truthy selected); [|apply Hnot_found].
  unfold bind. rewrite ctx_run_spec.
  destruct (answer ctx (switch_command selected)); reflexivity.
Qed.

(** *** What [int] reads *)

Lemma isalpha_facts c :
  isalpha c = true ->
  isdigit c = false /\ isspace c = false /\ (c =? 95) = false
  /\ (c =? 43) = false /\ (c =? 45) = false.
Proof.
  unfold isalpha, isdigit, isspace. intros H.
  repeat match goal with
         | |- context [N.leb ?a ?b] => destruct (N.leb_spec a b)
         | H : context [N.leb ?a ?b] |- _ => destruct (N.leb_spec a b)
         | |- context [N.eqb ?a ?b] => destruct (N.eqb_spec a b)
         end; simpl in *; repeat split; try reflexivity; try discriminate; lia.
Qed.

Lemma lstrip_by_keeps p c s : In c s -> p c = false -> In c (lstrip_by p s).
Proof.
  intros Hin Hc. destruct (lstrip_by_spec p s) as (dropped & Heq & Hall & _).
  rewrite Heq in Hin. apply in_app_or in Hin as [Hin | Hin]; [|exact Hin].
  rewrite List.Forall_forall in Hall. rewrite (Hall c Hin) in Hc. discriminate.
Qed.

Lemma rstrip_by_keeps p c s : In c s -> p c = false -> In c (rstrip_by p s).
Proof.
  intros Hin Hc. unfold rstrip_by. apply in_rev. rewrite rev_involutive.
  apply lstrip_by_keeps; [apply in_rev; rewrite rev_involutive; exact Hin | exact Hc].
Qed.

Lemma parse_digits_rejects c s : forall acc after_digit,
  In c s -> isdigit c = false -> (c =? 95) = false ->
  parse_digits acc after_digit s = None.
Proof.
  induction s as [|c' s IH]; intros acc after_digit Hin Hd Hu; [contradiction|].
  simpl. destruct Hin as [-> | Hin].
  - rewrite Hd, Hu. reflexivity.
  - destruct (isdigit c'); [apply IH; assumption|].
    destruct ((c' =? 95) && after_digit); [apply IH; assumption | reflexivity].
Qed.

(** A field with a letter in it is not read. *)
Lemma py_int_rejects_letters c s : In c s -> isalpha c = true -> py_int s = None.
Proof.
  intros Hin Hc. destruct (isalpha_facts c Hc) as (Hd & Hs & Hu & Hplus & Hminus).
  unfold py_int.
  assert (Hin' : In c (rstrip_by isspace (lstrip_by isspace s)))
    by (apply rstrip_by_keeps; [apply lstrip_by_keeps|]; assumption).
  destruct (rstrip_by isspace (lstrip_by isspace s)) as [|c' ds]; [reflexivity|].
  assert (Htail : c' <> c -> In c ds) by (destruct Hin'; [contradiction | trivial]).
  destruct (N.eqb_spec c' 43) as [-> | _].
  { rewrite (parse_digits_rejects c ds); [reflexivity | | assumption | assumption].
    apply Htail. intros <-. discriminate. }
  destruct (N.eqb_spec c' 45) as [-> | _].
  { rewrite (parse_digits_rejects c ds); [reflexivity | | assumption | assumption].
    apply Htail. intros <-. discriminate. }
  apply (parse_digits_rejects c); assumption.
Qed.

Lemma parse_digits_accepts s : forall acc after_digit,
  forallb isdigit s = true -> s <> [] \/ after_digit = true ->
  is_Some (parse_digits acc after_digit s).
Proof.
  induction s as [|c s IH]; intros acc after_digit Hall Hne; simpl.
  - destruct Hne as [Hne | ->]; [contradiction | eexists; reflexivity].
  - simpl in Hall. apply andb_prop in Hall as [Hc Hall]. rewrite Hc.
    apply IH; [exact Hall | right; reflexivity].
Qed.

Lemma isdigit_facts c :
  isdigit c = true -> isspace c = false /\ (c =? 43) = false /\ (c =? 45) = false.
Proof.
  unfold isdigit, isspace. intros H.
  repeat match goal with
         | |- context [N.leb ?a ?b] => destruct (N.leb_spec a b)
         | H : context [N.leb ?a ?b] |- _ => destruct (N.leb_spec a b)
         | |- context [N.eqb ?a ?b] => destruct (N.eqb_spec a b)
         end; simpl in *; repeat split; try reflexivity; try discriminate; lia.
Qed.

Lemma lstrip_by_head p c s : p c = false -> lstrip_by p (c :: s) = c :: s.
Proof. intros H. simpl. rewrite H. reflexivity. Qed.

(** A non-empty field of decimal digits is read. *)
Lemma py_int_accepts_digits s :
  s <> [] -> forallb isdigit s = true -> is_Some (py_int s).
Proof.
  intros Hne Hall. unfold py_int.
  assert (Hstrip : rstrip_by isspace (lstrip_by isspace s) = s).
  { destruct s as [|c s]; [contradiction|].
    pose proof Hall as Hall'. simpl in Hall'. apply andb_prop in Hall' as [Hc _].
    rewrite lstrip_by_head by apply (isdigit_facts c Hc).
    unfold rstrip_by.
    destruct (rev (c :: s)) as [|d r] eqn:Hrev.
    - apply (f_equal (@rev char)) in Hrev. rewrite rev_involutive in Hrev. discriminate.
    - assert (Hd : isdigit d = true).
      { rewrite forallb_forall in Hall. apply Hall. apply in_rev.
        rewrite Hrev. left; reflexivity. }
      rewrite lstrip_by_head by apply (isdigit_facts d Hd).
      rewrite <- Hrev. apply rev_involutive. }
  rewrite Hstrip. destruct s as [|c s]; [contradiction|].
  pose proof Hall as Hall'. simpl in Hall'. apply andb_prop in Hall' as [Hc _].
  destruct (isdigit_facts c Hc) as (_ & -> & ->).
  apply parse_digits_accepts; [exact Hall | left; discriminate].
Qed.

Lemma dotted_integers_sort_key line :
  dotted_integers line = true <-> is_Some (sort_key line).
Proof.
  unfold dotted_integers, sort_key. rewrite mapM_is_Some, forallb_forall, List.Forall_forall.
  split; intros H field Hin; specialize (H field Hin).
  - apply bool_decide_eq_true in H. exact H.
  - apply bool_decide_eq_true. exact H.
Qed.

Lemma sort_defined versions :
  Forall (fun line => dotted_integers line = true) versions
  <-> is_Some (sorted list_lt sort_key versions).
Proof.
  rewrite <- sorted_defined. rewrite !List.Forall_forall.
  split; intros H line Hin; apply dotted_integers_sort_key, H, Hin.
Qed.

(** *** The scan of the sorted list *)

(** In a sorted list, the last item that passes a test is not before any
    other that passes it. *)
Lemma last_match_greatest {A} (R : A -> A -> Prop) (f : A -> bool) l :
  StronglySorted R l ->
  forall x, last (List.filter f l) = Some x ->
  forall y, In y l -> f y = true -> y = x \/ R y x.
Proof.
  induction 1 as [|a l _ IH Hall]; intros x Hlast y Hin Hy; [contradiction|].
  rewrite List.Forall_forall in Hall. simpl in Hlast.
  destruct (f a) eqn:Ha.
  - rewrite last_cons in Hlast.
    destruct (last (List.filter f l)) as [z|] eqn:Hz.
    + injection Hlast as ->. destruct Hin as [<- | Hin].
      * right. apply Hall. apply last_Some in Hz as [l' Hz].
        assert (Hx : In x (List.filter f l)) by (rewrite Hz; apply in_or_app; right; left; reflexivity).
        apply List.filter_In in Hx as [Hx _]. exact Hx.
      * apply (IH x eq_refl y Hin Hy).
    + injection Hlast as ->. destruct Hin as [<- | Hin]; [left; reflexivity|].
      apply last_None in Hz.
      assert (Hy' : In y (List.filter f l)) by (apply List.filter_In; split; assumption).
      rewrite Hz in Hy'. contradiction.
  - destruct Hin as [<- | Hin]; [congruence|].
    apply (IH x Hlast y Hin Hy).
Qed.

Lemma installed_truthy stdout line : In line (installed stdout) -> truthy line = true.
Proof. unfold installed. intros H. apply List.filter_In in H as [_ H]. exact H. Qed.

Lemma matching_nil version python_versions :
  Forall (fun line => startswith line version = false) python_versions ->
  matching version python_versions = [].
Proof.
  induction 1 as [|v l Hv _ IH]; [reflexivity|].
  unfold matching in *. simpl. rewrite Hv. exact IH.
Qed.

Lemma sorted_versions versions python_versions :
  sorted list_lt sort_key versions = Some python_versions ->
  Permutation python_versions versions /\ StronglySorted key_le python_versions.
Proof. exact (sorted_Some list_lt list_lt_asym list_le_trans sort_key _ _). Qed.

Lemma print_header_level_1_logged text icon w :
  exists header, (print_header text 1 icon w).2 = logged [Print header] w.
Proof.
  eexists. rewrite (print_header_known_level text 1 icon w 35 eq_refl). reflexivity.
Qed.

(** *** No installed version matches *)

(** C2, as stated, fails in two ways.  With the list that consists of
    the entry "pypy3.9-7.3.9", which does not start with "3.12", the task
    stops with ValueError in the sort, and no notice is printed.  With
    the list that consists of "3.6.9" the notice and the guidance are
    printed, and the exit signal that is raised carries the status 0, the
    status of success. *)
Lemma switch_python_version_not_found_counterexample :
  (installed (lit "pypy3.9-7.3.9" ++ [NL]) = [lit "pypy3.9-7.3.9"]
   /\ startswith (lit "pypy3.9-7.3.9") (lit "3.12") = false
   /\ (switch_python_version (pyenv_prints (lit "pypy3.9-7.3.9" ++ [NL])) (lit "3.12")
                             bare_world).1
      = Raise ValueError
   /\ exists header,
        trace (switch_python_version (pyenv_prints (lit "pypy3.9-7.3.9" ++ [NL]))
                                     (lit "3.12") bare_world).2
        = [Print header; Run pyenv_versions false hide_stdout])
  /\ (installed (lit "3.6.9" ++ [NL]) = [lit "3.6.9"]
      /\ startswith (lit "3.6.9") (lit "3.12") = false
      /\ exists message code,
           (switch_python_version (pyenv_prints (lit "3.6.9" ++ [NL])) (lit "3.12")
                                  bare_world).1
           = Raise (Exit message code)
           /\ Exit_code message code = 0%Z).
Proof.
  split.
  - split; [reflexivity|]. split; [reflexivity|]. split; [vm_compute; reflexivity|].
    eexists. vm_compute. reflexivity.
  - split; [reflexivity|]. split; [reflexivity|].
    exists None, None. split; [vm_compute; reflexivity | reflexivity].
Qed.

(** C2, amended: when every installed version is a dot-separated sequence
    of integers and none of them starts with the requested version, the
    task, after the header and the query for the installed versions,
    prints the red not-found notice and the guidance with the sorted list
    of versions, and stops there by raising the exit signal; the command
    that switches the environment is not run.  The status the exit signal
    carries is left open. *)
Theorem switch_python_version_not_found ctx version w stdout :
  answer ctx pyenv_versions = Some stdout ->
  Forall (fun line => dotted_integers line = true) (installed stdout) ->
  Forall (fun line => startswith line version = false) (installed stdout) ->
  exists python_versions header message code,
    sorted list_lt sort_key (installed stdout) = Some python_versions
    /\ Permutation python_versions (installed stdout)
    /\ switch_python_version ctx version w
       = (Raise (Exit message code),
          logged [Print header;
                  Run pyenv_versions false hide_stdout;
                  Secho (not_found_notice version) red;
                  Print (guidance python_versions)] w)
    /\ forall selected pty h,
         ~ In (Run (switch_command selected) pty h)
              [Print header;
               Run pyenv_versions false hide_stdout;
               Secho (not_found_notice version) red;
               Print (guidance python_versions)].
Proof.
  intros Hanswer Hdotted Hnone.
  apply sort_defined in Hdotted as [python_versions Hsorted].
  destruct (sorted_versions _ _ Hsorted) as [Hperm _].
  destruct (print_header_level_1_logged (lit "Switching to Python " ++ version)
                                        [128013] w) as [header Hheader].
  exists python_versions, header, None, None.
  split; [exact Hsorted|]. split; [exact Hperm|]. split.
  - rewrite (switch_python_version_unfold ctx version w stdout Hanswer).
    cbv zeta. rewrite Hsorted, Hheader.
    assert (Hnil : matching version python_versions = []).
    { apply matching_nil. rewrite List.Forall_forall in *. intros v Hv.
      apply Hnone. apply (Permutation_in _ Hperm). exact Hv. }
    unfold found_notices. rewrite Hnil. simpl.
    do 3 rewrite logged_logged. reflexivity.
  - intros selected pty h [H | [H | [H | [H | []]]]]; discriminate H.
Qed.

Lemma switch_python_version_not_found_witness :
  exists python_versions header message code,
    sorted list_lt sort_key (installed (unlines [lit "3.9.0"; lit "3.6.9"; lit "3.6.1"]))
    = Some python_versions
    /\ switch_python_version
         (pyenv_prints (unlines [lit "3.9.0"; lit "3.6.9"; lit "3.6.1"]))
         (lit "3.12") bare_world
       = (Raise (Exit message code),
          logged [Print header;
                  Run pyenv_versions false hide_stdout;
                  Secho (not_found_notice (lit "3.12")) red;
                  Print (guidance python_versions)] bare_world).
Proof.
  destruct (switch_python_version_not_found
              (pyenv_prints (unlines [lit "3.9.0"; lit "3.6.9"; lit "3.6.1"]))
              (lit "3.12") bare_world
              (unlines [lit "3.9.0"; lit "3.6.9"; lit "3.6.1"]))
    as (python_versions & header & message & code & Hsorted & _ & Hrun & _).
  - reflexivity.
  - vm_compute. repeat constructor.
  - vm_compute. repeat constructor.
  - exists python_versions, header, message, code. split; [exact Hsorted | exact Hrun].
Defined.

(** *** Some installed version matches *)

Lemma key_le_refl line : dotted_integers line = true -> key_le line line.
Proof.
  intros H. apply dotted_integers_sort_key in H as [k Hk].
  unfold key_le, item_le. rewrite Hk. apply list_lt_irrefl.
Qed.

(** C3: when every installed version is a dot-separated sequence of
    integers and some of them start with the requested version, the list
    is sorted by the integer components of the versions, the last of the
    sorted versions that starts with the requested version is selected,
    no installed version that starts with the requested version is
    numerically greater than it, and it is the version the switch command
    is run with.  Of "3.6.1", "3.6.9" and "3.9.0", "3.6.9" is selected
    for the request "3.6"; "3.9.0" is sorted before "3.10.0". *)
Theorem switch_python_version_selects_greatest ctx version w stdout :
  answer ctx pyenv_versions = Some stdout ->
  Forall (fun line => dotted_integers line = true) (installed stdout) ->
  Exists (fun line => startswith line version = true) (installed stdout) ->
  (exists python_versions selected header,
      sorted list_lt sort_key (installed stdout) = Some python_versions
      /\ Permutation python_versions (installed stdout)
      /\ StronglySorted key_le python_versions
      /\ last (matching version python_versions) = Some selected
      /\ In selected (installed stdout)
      /\ startswith selected version = true
      /\ (forall v, In v (installed stdout) -> startswith v version = true ->
                    key_le v selected)
      /\ switch_python_version ctx version w
         = (match answer ctx (switch_command selected) with
            | Some _ => Return tt
            | None => Raise UnexpectedExit
            end,
            logged ([Print header; Run pyenv_versions false hide_stdout]
                    ++ found_notices version python_versions
                    ++ [Run (switch_command selected) true hide_nothing]) w))
  /\ sorted list_lt sort_key [lit "3.6.1"; lit "3.6.9"; lit "3.9.0"]
     = Some [lit "3.6.1"; lit "3.6.9"; lit "3.9.0"]
  /\ last (matching (lit "3.6") [lit "3.6.1"; lit "3.6.9"; lit "3.9.0"])
     = Some (lit "3.6.9")
  /\ sorted list_lt sort_key [lit "3.10.0"; lit "3.9.0"]
     = Some [lit "3.9.0"; lit "3.10.0"].
Proof.
  intros Hanswer Hdotted Hex.
  split; [|repeat split; vm_compute; reflexivity].
  pose proof Hdotted as Hd. apply sort_defined in Hd as [python_versions Hsorted].
  destruct (sorted_versions _ _ Hsorted) as [Hperm Hss].
  destruct (print_header_level_1_logged (lit "Switching to Python " ++ version)
                                        [128013] w) as [header Hheader].
  apply List.Exists_exists in Hex as (v0 & Hv0 & Hstart0).
  assert (Hmatch0 : In v0 (matching version python_versions)).
  { apply (List.filter_In (fun v => startswith v version)). split; [|exact Hstart0].
    apply (Permutation_in _ (Permutation_sym Hperm)). exact Hv0. }
  destruct (last (matching version python_versions)) as [selected|] eqn:Hlast.
  2: { apply last_None in Hlast. rewrite Hlast in Hmatch0. contradiction. }
  assert (Hsel : In selected python_versions /\ startswith selected version = true).
  { apply (List.filter_In (fun v => startswith v version)).
    apply last_Some in Hlast as [l' Hl'].
    fold (matching version python_versions). rewrite Hl'.
    apply in_or_app. right. left. reflexivity. }
  destruct Hsel as [Hsel_in Hsel_start].
  assert (Hsel_installed : In selected (installed stdout))
    by (apply (Permutation_in _ Hperm); exact Hsel_in).
  exists python_versions, selected, header.
  split; [exact Hsorted|]. split; [exact Hperm|]. split; [exact Hss|].
  split; [exact Hlast|]. split; [exact Hsel_installed|]. split; [exact Hsel_start|].
  split.
  - intros v Hv Hstart.
    assert (Hv' : In v python_versions)
      by (apply (Permutation_in _ (Permutation_sym Hperm)); exact Hv).
    destruct (last_match_greatest key_le (fun v => startswith v version)
                python_versions Hss selected Hlast v Hv' Hstart) as [-> | Hle];
      [|exact Hle].
    apply key_le_refl. rewrite List.Forall_forall in Hdotted. apply Hdotted. exact Hv.
  - rewrite (switch_python_version_unfold ctx version w stdout Hanswer).
    cbv zeta. rewrite Hsorted, Hheader, Hlast.
    rewrite (installed_truthy stdout selected Hsel_installed).
    do 3 rewrite logged_logged. reflexivity.
Qed.

Lemma switch_python_version_selects_greatest_witness :
  exists header,
    switch_python_version
      (pyenv_prints (unlines [lit "3.6.9"; lit "3.9.0"; lit "3.6.1"]))
      (lit "3.6") bare_world
    = (Return tt,
       logged [Print header;
               Run pyenv_versions false hide_stdout;
               Secho (found_notice (lit "3.6.1")) green;
               Secho (found_notice (lit "3.6.9")) green;
               Run (switch_command (lit "3.6.9")) true hide_nothing] bare_world).
Proof.
  destruct (switch_python_version_selects_greatest
              (pyenv_prints (unlines [lit "3.6.9"; lit "3.9.0"; lit "3.6.1"]))
              (lit "3.6") bare_world
              (unlines [lit "3.6.9"; lit "3.9.0"; lit "3.6.1"]))
    as [(python_versions & selected & header & Hsorted & _ & _ & Hlast & _ & _ & _ & Hrun) _].
  - reflexivity.
  - vm_compute. repeat constructor.
  - vm_compute. apply Exists_cons_hd. reflexivity.
  - vm_compute in Hsorted. injection Hsorted as <-.
    vm_compute in Hlast. injection Hlast as <-.
    exists header. exact Hrun.
Defined.

(** *** An installed version that is not made of integers *)

Lemma switch_python_version_value_error ctx version w stdout :
  answer ctx pyenv_versions = Some stdout ->
  exists header,
    (~ Forall (fun line => dotted_integers line = true) (installed stdout))
    <-> switch_python_version ctx version w
        = (Raise ValueError,
           logged [Print header; Run pyenv_versions false hide_stdout] w).
Proof.
  intros Hanswer.
  destruct (print_header_level_1_logged (lit "Switching to Python " ++ version)
                                        [128013] w) as [header Hheader].
  exists header.
  rewrite (switch_python_version_unfold ctx version w stdout Hanswer).
  cbv zeta. rewrite Hheader, logged_logged. rewrite sort_defined.
  destruct (sorted list_lt sort_key (installed stdout)) as [python_versions|].
  - split.
    + intros H. exfalso. apply H. eexists; reflexivity.
    + intros H Hsome.
      destruct (last (matching version python_versions)) as [selected|];
        [destruct (truthy selected);
         [destruct (answer ctx (switch_command selected))|]|];
        discriminate H.
  - split; [reflexivity|]. intros _ [x Hx]. discriminate Hx.
Qed.

(** C10: the sort succeeds exactly when [int] reads every dot-separated
    field of every non-empty line of the output; otherwise the task stops
    with ValueError right after the header and the query, before any
    version is compared with the request and before any notice.  A field
    of decimal digits is read and a field with a letter in it is not, so
    a line with a letter in a field makes the task fail in this way, as
    "3.9.0a1" does. *)
Theorem sort_key_conversion_error ctx version w stdout :
  answer ctx pyenv_versions = Some stdout ->
  (is_Some (sorted list_lt sort_key (installed stdout))
   <-> Forall (fun line => dotted_integers line = true) (installed stdout))
  /\ (exists header,
        (~ Forall (fun line => dotted_integers line = true) (installed stdout))
        <-> switch_python_version ctx version w
            = (Raise ValueError,
               logged [Print header; Run pyenv_versions false hide_stdout] w))
  /\ (forall line field c,
        In line (installed stdout) -> In field (split DOT line) ->
        In c field -> isalpha c = true ->
        dotted_integers line = false
        /\ exists header,
             switch_python_version ctx version w
             = (Raise ValueError,
                logged [Print header; Run pyenv_versions false hide_stdout] w))
  /\ (forall field, field <> [] -> forallb isdigit field = true -> is_Some (py_int field))
  /\ (forall field c, In c field -> isalpha c = true -> py_int field = None)
  /\ exists header,
       switch_python_version
         (pyenv_prints (unlines [lit "3.6.1"; lit "3.9.0a1"])) (lit "3.9") bare_world
       = (Raise ValueError,
          logged [Print header; Run pyenv_versions false hide_stdout] bare_world).
Proof.
  intros Hanswer.
  split; [symmetry; apply sort_defined|].
  split; [apply switch_python_version_value_error; exact Hanswer|].
  split.
  { intros line field c Hline Hfield Hc Halpha.
    assert (Hbad : dotted_integers line = false).
    { destruct (dotted_integers line) eqn:Hd; [|reflexivity].
      unfold dotted_integers in Hd. rewrite forallb_forall in Hd.
      specialize (Hd field Hfield). apply bool_decide_eq_true in Hd as [z Hz].
      rewrite (py_int_rejects_letters c field Hc Halpha) in Hz. discriminate. }
    split; [exact Hbad|].
    destruct (switch_python_version_value_error ctx version w stdout Hanswer)
      as [header Hiff].
    exists header. apply Hiff. intros Hall.
    rewrite List.Forall_forall in Hall. rewrite (Hall line Hline) in Hbad. discriminate. }
  split; [apply py_int_accepts_digits|].
  split; [intros field c; apply py_int_rejects_letters|].
  eexists. vm_compute. reflexivity.
Qed.

Lemma sort_key_conversion_error_witness :
  exists header,
    switch_python_version (pyenv_prints (unlines [lit "3.12-dev"; lit "3.6.9"]))
                          (lit "3.6") bare_world
    = (Raise ValueError,
       logged [Print header; Run pyenv_versions false hide_stdout] bare_world).
Proof.
  destruct (sort_key_conversion_error
              (pyenv_prints (unlines [lit "3.12-dev"; lit "3.6.9"]))
              (lit "3.6") bare_world (unlines [lit "3.12-dev"; lit "3.6.9"]) eq_refl)
    as (_ & _ & Hletter & _).
  destruct (Hletter (lit "3.12-dev") (lit "12-dev") 100) as [_ Hrun].
  - vm_compute. left. reflexivity.
  - vm_compute. right. left. reflexivity.
  - vm_compute. do 3 right. left. reflexivity.
  - reflexivity.
  - exact Hrun.
Defined.


(** * Further properties *)

(** ** What a call leaves untouched *)

Lemma set_files_same w : w = (set_files (files w) w).2.
Proof. destruct w. reflexivity. Qed.

Lemma only_adds_files_bind {A B} (c : Py A) (k : A -> Py B) :
  only_adds_files c -> (forall a, only_adds_files (k a)) -> only_adds_files (bind c k).
Proof.
  intros Hc Hk w. unfold bind. destruct (Hc w) as (fs & Hw & Hsub).
  destruct (c w) as [[a | e] w']; cbn [fst snd] in *; subst w'.
  - destruct (Hk a (set_files fs w).2) as (fs' & Hw' & Hsub').
    exists fs'. rewrite Hw'. split; [reflexivity|].
    etrans; [exact Hsub | exact Hsub'].
  - exists fs. split; [reflexivity | exact Hsub].
Qed.

Lemma only_adds_files_try_except {A} (c : Py A) (handler : exn -> Py A) :
  only_adds_files c -> (forall e, only_adds_files (handler e)) ->
  only_adds_files (try_except c handler).
Proof.
  intros Hc Hh w. unfold try_except. destruct (Hc w) as (fs & Hw & Hsub).
  destruct (c w) as [[a | e] w']; cbn [fst snd] in *; subst w'.
  - exists fs. split; [reflexivity | exact Hsub].
  - destruct (Hh e (set_files fs w).2) as (fs' & Hw' & Hsub').
    exists fs'. rewrite Hw'. split; [reflexivity|].
    etrans; [exact Hsub | exact Hsub'].
Qed.

Lemma only_adds_files_same {A} (c : Py A) :
  (forall w, (c w).2 = w) -> only_adds_files c.
Proof.
  intros H w. exists (files w). rewrite H. split; [apply set_files_same | reflexivity].
Qed.

Lemma read_file_same fpath w : (read_file fpath w).2 = w.
Proof.
  unfold read_file.
  repeat match goal with
         | |- context [match ?x with _ => _ end] => destruct x
         end; reflexivity.
Qed.

Lemma read_contents_same fpath strip_newline w :
  (read_contents fpath strip_newline w).2 = w.
Proof.
  unfold read_contents, open_text, bind.
  pose proof (read_file_same fpath w) as H.
  destruct (read_file fpath w) as [[text | e] w']; simpl in *; exact H.
Qed.

Lemma only_adds_files_os_mkdir p : only_adds_files (os_mkdir p).
Proof.
  intros w. unfold os_mkdir.
  destruct (walk _ _ _) as [dir | e]; [|exists (files w); split; [apply set_files_same | reflexivity]].
  destruct (lookup_node (files w) dir) as [[|text]|];
    try (exists (files w); split; [apply set_files_same | reflexivity]).
  destruct (last (parts p)) as [name|];
    [|exists (files w); split; [apply set_files_same | reflexivity]].
  destruct (is_dotdot name);
    [exists (files w); split; [apply set_files_same | reflexivity]|].
  destruct (lookup_node (files w) (dir ++ [name])) as [n|] eqn:Hkey;
    [exists (files w); split; [apply set_files_same | reflexivity]|].
  eexists. split; [reflexivity|].
  apply insert_subseteq. rewrite <- lookup_node_snoc. exact Hkey.
Qed.

Lemma only_adds_files_mkdir_exists p exist_ok e :
  only_adds_files (mkdir_exists p exist_ok e).
Proof.
  apply only_adds_files_same. intros w. unfold mkdir_exists, bind, is_dir, get.
  destruct (negb exist_ok || negb _); reflexivity.
Qed.

Lemma only_adds_files_raise {A} e : only_adds_files (@raise A e).
Proof. apply only_adds_files_same. reflexivity. Qed.

Lemma only_adds_files_mkdir_leaf p exist_ok : only_adds_files (mkdir_leaf p exist_ok).
Proof.
  unfold mkdir_leaf. apply only_adds_files_try_except; [apply only_adds_files_os_mkdir|].
  intros e. destruct (is_FileNotFoundError e);
    [apply only_adds_files_raise | apply only_adds_files_mkdir_exists].
Qed.

Lemma only_adds_files_mkdir_rev is_anchored rparts : forall parents exist_ok,
  only_adds_files (mkdir_rev is_anchored rparts parents exist_ok).
Proof.
  induction rparts as [|name rparent IH]; intros parents exist_ok; simpl;
    (apply only_adds_files_try_except; [apply only_adds_files_os_mkdir|]); intros e;
    destruct (is_FileNotFoundError e);
    try apply only_adds_files_raise; try apply only_adds_files_mkdir_exists.
  destruct (negb parents); [apply only_adds_files_raise|].
  apply only_adds_files_bind; [apply IH | intros _; apply only_adds_files_mkdir_leaf].
Qed.

Lemma only_adds_files_ensure_reports_dir : only_adds_files ensure_reports_dir.
Proof.
  unfold ensure_reports_dir. apply only_adds_files_bind.
  - apply only_adds_files_same. reflexivity.
  - intros info. apply only_adds_files_mkdir_rev.
Qed.

(** X1: four functions of the module run no command, and what they do
    to the world is this, whatever their arguments (for format_messages,
    a success pattern of the modelled fragment of regular expressions),
    the state they start in and their outcome.  ensure_reports_dir only adds entries to the
    file system: no entry is removed or replaced and nothing is printed.
    read_contents leaves the world as it is.  format_messages returns
    after printing one text, the success notice or the message, and
    touches nothing else.  print_header either prints one text and
    returns or raises KeyError with nothing printed, and touches nothing
    else. *)
Theorem functions_frame w :
  (exists fs, (ensure_reports_dir w).2 = (set_files fs w).2 /\ files w ⊆ fs)
  /\ (forall fpath strip_newline, (read_contents fpath strip_newline w).2 = w)
  /\ (forall messages success_pattern,
        format_messages messages success_pattern w
        = (Return tt, logged [Secho NO_ISSUES green] w)
        \/ format_messages messages success_pattern w
           = (Return tt, logged [Print messages] w))
  /\ (forall text level icon,
        (exists line, print_header text level icon w = (Return tt, logged [Print line] w))
        \/ print_header text level icon w = (Raise (KeyError level), w)).
Proof.
  split; [apply only_adds_files_ensure_reports_dir|].
  split; [intros; apply read_contents_same|]. split.
  - intros messages success_pattern. unfold format_messages.
    destruct (re.match_ success_pattern messages re.DOTALL); [left | right]; reflexivity.
  - intros text level icon.
    destruct (_HEADER_LEVEL_CHARACTERS !! level) as [fill|] eqn:Hfill.
    + left. eexists. rewrite (print_header_known_level _ _ _ _ _ Hfill). reflexivity.
    + right. apply print_header_unknown_level. exact Hfill.
Qed.

(** ** read_contents: the shape of what it returns *)

Lemma split_without_sep sep s : ~ In sep s -> split sep s = [s].
Proof.
  induction s as [|c s IH]; intros Hno; [reflexivity|].
  simpl. destruct (N.eqb_spec c sep) as [-> | _].
  - exfalso. apply Hno. left. reflexivity.
  - rewrite IH; [reflexivity|]. intros H. apply Hno. right. exact H.
Qed.


Lemma translate_newlines_has_no_cr text : ~ In CR (translate_newlines text).
Proof.
  assert (H : forall n t, (List.length t <= n)%nat -> ~ In CR (translate_newlines t)).
  { induction n as [|n IH]; intros t Hlen.
    - destruct t; [intros [] | simpl in Hlen; lia].
    - destruct t as [|c t]; [intros []|]. simpl in Hlen. simpl.
      destruct (N.eqb_spec c CR) as [-> | Hc].
      + destruct t as [|c' t]; [intros [H | []]; discriminate|].
        simpl in Hlen.
        destruct (c' =? NL); intros [H | H]; try discriminate;
          revert H; apply IH; simpl; lia.
      + intros [H | H]; [congruence|]. revert H. apply IH. lia. }
  apply (H (List.length text)). lia.
Qed.

Lemma rstrip_newline_fixed s : last s <> Some NL -> rstrip [NL] s = s.
Proof.
  intros Hlast. unfold rstrip, rstrip_by.
  destruct s as [|x l _] using rev_ind; [reflexivity|].
  rewrite last_snoc in Hlast. rewrite rev_app_distr. simpl.
  destruct (N.eqb_spec x NL) as [-> | _]; [congruence|].
  simpl. rewrite rev_involutive. reflexivity.
Qed.

Lemma rstrip_newline_idempotent s : rstrip [NL] (rstrip [NL] s) = rstrip [NL] s.
Proof.
  destruct (rstrip_newline_spec s) as (k & _ & Hlast).
  apply rstrip_newline_fixed. exact Hlast.
Qed.

(** X3: the text read_contents returns never holds a carriage return.
    With the strip flag it returns what it returns without the flag,
    stripped of the newlines at its end: stripping that again changes
    nothing, and a text that does not end with a newline is returned the
    same with and without the flag. *)
Theorem read_contents_text fpath w contents :
  (read_contents fpath false w).1 = Return contents ->
  ~ In CR contents
  /\ read_contents fpath true w = (Return (rstrip [NL] contents), w)
  /\ ~ In CR (rstrip [NL] contents)
  /\ rstrip [NL] (rstrip [NL] contents) = rstrip [NL] contents
  /\ (last contents <> Some NL ->
      read_contents fpath true w = read_contents fpath false w).
Proof.
  intros H.
  pose proof (read_file_same fpath w) as Hsame.
  destruct (read_file fpath w) as [[text | e] w'] eqn:Hfile; simpl in Hsame; subst w'.
  2: { unfold read_contents, open_text, bind in H. rewrite Hfile in H. discriminate. }
  pose proof (read_contents_unfold fpath false w text Hfile) as Hfalse.
  pose proof (read_contents_unfold fpath true w text Hfile) as Htrue.
  rewrite Hfalse in H. injection H as <-.
  split; [apply translate_newlines_has_no_cr|].
  split; [exact Htrue|]. split.
  - destruct (rstrip_newline_spec (translate_newlines text)) as (k & Heq & _).
    intros Hin. apply (translate_newlines_has_no_cr text).
    rewrite Heq. apply in_or_app. left. exact Hin.
  - split; [apply rstrip_newline_idempotent|].
    intros Hlast. rewrite Htrue, Hfalse, (rstrip_newline_fixed _ Hlast). reflexivity.
Qed.

Lemma read_contents_text_witness :
  (read_contents (lit "dos.txt") false project_world).1 = Return (lit "line1" ++ [NL])
  /\ read_contents (lit "dos.txt") true project_world = (Return (lit "line1"), project_world).
Proof.
  assert (H : (read_contents (lit "dos.txt") false project_world).1
              = Return (lit "line1" ++ [NL])) by (vm_compute; reflexivity).
  split; [exact H|].
  exact (proj1 (proj2 (read_contents_text _ _ _ H))).
Defined.

(** ** ensure_reports_dir and read_contents together *)

Lemma lookup_node_weaken fs fs' key n :
  fs ⊆ fs' -> lookup_node fs key = Some n -> lookup_node fs' key = Some n.
Proof.
  intros Hsub. destruct key as [|c key]; [trivial|]. simpl.
  intros H. eapply lookup_weaken; eassumption.
Qed.

Lemma walk_weaken fs fs' comps : forall at_ key,
  fs ⊆ fs' -> walk fs at_ comps = Return key -> walk fs' at_ comps = Return key.
Proof.
  induction comps as [|c comps IH]; intros at_ key Hsub H; simpl in *; [exact H|].
  destruct (lookup_node fs at_) as [[|text]|] eqn:Hat; try discriminate.
  rewrite (lookup_node_weaken fs fs' at_ Dir Hsub Hat). apply IH; assumption.
Qed.

(** X4: a file that read_contents can read is read with the same result
    after ensure_reports_dir was called, whatever that call did and
    whatever the reports directory is set to. *)
Theorem ensure_reports_dir_keeps_reads fpath strip_newline w text :
  read_file fpath w = (Return text, w) ->
  read_contents fpath strip_newline (ensure_reports_dir w).2
  = ((read_contents fpath strip_newline w).1, (ensure_reports_dir w).2).
Proof.
  intros Hfile.
  destruct (only_adds_files_ensure_reports_dir w) as (fs & Hw & Hsub).
  rewrite (read_contents_unfold fpath strip_newline w text Hfile). cbn [fst].
  apply read_contents_unfold.
  rewrite Hw. revert Hfile. unfold read_file, start_of, set_files.
  cbn [snd files cwd].
  destruct (existsb (N.eqb 0) fpath); [discriminate|].
  destruct (truthy fpath); [|discriminate].
  destruct (walk (files w) _ _) as [key | e] eqn:Hwalk; [|discriminate].
  rewrite (walk_weaken _ _ _ _ _ Hsub Hwalk).
  destruct (lookup_node (files w) key) as [[|text']|] eqn:Hkey; try discriminate.
  rewrite (lookup_node_weaken _ _ _ _ Hsub Hkey).
  intros [= ->]. reflexivity.
Qed.

Lemma ensure_reports_dir_keeps_reads_witness :
  read_file (lit "notes.txt") project_world
  = (Return (lit "line1" ++ [NL] ++ lit "line2" ++ [NL]), project_world)
  /\ read_contents (lit "notes.txt") true (ensure_reports_dir project_world).2
     = ((read_contents (lit "notes.txt") true project_world).1,
        (ensure_reports_dir project_world).2).
Proof.
  assert (H : read_file (lit "notes.txt") project_world
              = (Return (lit "line1" ++ [NL] ++ lit "line2" ++ [NL]), project_world))
    by (vm_compute; reflexivity).
  split; [exact H|].
  exact (ensure_reports_dir_keeps_reads _ true _ _ H).
Defined.

(** ** ensure_reports_dir: the parents of the reports directory *)

























(** ** format_messages: patterns that only take characters *)

Lemma Matches_extend dotall s extra p i j :
  plain p = true ->
  re.Matches dotall s p i j -> re.Matches dotall (s ++ extra) p i j.
Proof.
  intros Hfree H.
  induction H as [i | c i E | c i E D | | i E | p q i j k _ IH1 _ IH2
                  | p q i j _ IH | p q i j _ IH | p i | p i j k _ IH1 _ IH2];
    simpl in Hfree; try discriminate.
  - constructor.
  - constructor. rewrite nth_error_app1; [exact E|].
    apply nth_error_Some. congruence.
  - econstructor; [|exact D]. rewrite nth_error_app1; [exact E|].
    apply nth_error_Some. congruence.
  - apply andb_prop in Hfree as [Hp Hq]. econstructor; [apply IH1 | apply IH2]; assumption.
  - apply andb_prop in Hfree as [Hp Hq]. apply re.M_AltL, IH; assumption.
  - apply andb_prop in Hfree as [Hp Hq]. apply re.M_AltR, IH; assumption.
  - constructor.
  - eapply re.M_StarS; [apply IH1 | apply IH2]; assumption.
Qed.

(** X6: for a success pattern made of literal characters, [.],
    concatenation, alternation and star alone, a message that gives the
    success notice still gives it when anything is appended to it: the
    pattern is only matched at the start of the message, so the text that
    follows is never looked at. *)
Theorem format_messages_ignores_what_follows messages success_pattern w :
  plain success_pattern = true ->
  format_messages messages success_pattern w = secho NO_ISSUES green w ->
  forall extra w',
    format_messages (messages ++ extra) success_pattern w' = secho NO_ISSUES green w'.
Proof.
  intros Hfree Hsuccess extra w'.
  assert (Hmatch : re.match_ success_pattern messages re.DOTALL = true).
  { unfold format_messages in Hsuccess.
    destruct (re.match_ success_pattern messages re.DOTALL); [reflexivity|].
    symmetry in Hsuccess. apply secho_is_not_print in Hsuccess. contradiction. }
  apply match_spec in Hmatch as [j Hj].
  unfold format_messages.
  rewrite (proj2 (match_spec re.DOTALL (messages ++ extra) success_pattern));
    [reflexivity|].
  exists j. apply Matches_extend; assumption.
Qed.

Lemma format_messages_ignores_what_follows_witness :
  format_messages (lit "ok" ++ [NL] ++ lit "3 errors") (re.literal (lit "ok")) bare_world
  = secho NO_ISSUES green bare_world.
Proof.
  exact (format_messages_ignores_what_follows (lit "ok") (re.literal (lit "ok"))
           bare_world eq_refl eq_refl ([NL] ++ lit "3 errors") bare_world).
Defined.

(** ** switch_python_version: reading the list of installed versions *)

Lemma split_fields_without_sep sep s : forall field,
  In field (split sep s) -> ~ In sep field.
Proof.
  induction s as [|c s IH]; intros field Hin; simpl in Hin.
  - destruct Hin as [<- | []]. intros [].
  - destruct (N.eqb_spec c sep) as [-> | Hc].
    + destruct Hin as [<- | Hin]; [intros [] | apply IH; exact Hin].
    + destruct (split sep s) as [|first rest] eqn:Hsplit.
      * destruct Hin as [<- | []]. intros [H | []]. congruence.
      * destruct Hin as [<- | Hin].
        -- intros [H | H]; [congruence|]. revert H. apply IH. left. reflexivity.
        -- apply IH. right. exact Hin.
Qed.

Lemma split_app_sep sep v rest :
  ~ In sep v -> split sep (v ++ sep :: rest) = v :: split sep rest.
Proof.
  induction v as [|c v IH]; intros Hno; simpl.
  - rewrite N.eqb_refl. reflexivity.
  - destruct (N.eqb_spec c sep) as [-> | _]; [exfalso; apply Hno; left; reflexivity|].
    rewrite IH; [reflexivity|]. intros H. apply Hno. right. exact H.
Qed.

Lemma truthy_nonempty (s : str) : s <> [] -> truthy s = true.
Proof. destruct s; [contradiction | reflexivity]. Qed.

(** X7: every installed version the task reads off the output of pyenv
    is a non-empty line without a newline, and every list of such lines
    is read back as it is, in the same order, when it is printed one
    version per line, with or without a newline after the last one. *)
Theorem installed_reads_lines versions :
  Forall (fun v => v <> [] /\ ~ In NL v) versions ->
  installed (unlines versions) = versions
  /\ installed (join [NL] versions) = versions
  /\ forall stdout line, In line (installed stdout) -> line <> [] /\ ~ In NL line.
Proof.
  intros Hlines. split; [|split].
  - induction Hlines as [|v versions [Hne Hnl] _ IH]; [reflexivity|].
    unfold installed in *. cbn [unlines flat_map].
    rewrite <- app_assoc. cbn [app]. rewrite (split_app_sep NL v _ Hnl).
    cbn [List.filter]. rewrite (truthy_nonempty v Hne). f_equal. exact IH.
  - induction Hlines as [|v versions [Hne Hnl] Hrest IH]; [reflexivity|].
    unfold installed in *. destruct versions as [|v' versions].
    + cbn [join]. rewrite (split_without_sep NL v Hnl). cbn [List.filter].
      rewrite (truthy_nonempty v Hne). reflexivity.
    + change (join [NL] (v :: v' :: versions)) with (v ++ NL :: join [NL] (v' :: versions)).
      rewrite (split_app_sep NL v _ Hnl). cbn [List.filter].
      rewrite (truthy_nonempty v Hne). f_equal. exact IH.
  - intros stdout line Hin. unfold installed in Hin.
    apply List.filter_In in Hin as [Hin Htruthy]. split.
    + intros ->. discriminate.
    + eapply split_fields_without_sep. exact Hin.
Qed.

Lemma installed_reads_lines_witness :
  installed (unlines [lit "3.9.0"; lit "3.6.9"]) = [lit "3.9.0"; lit "3.6.9"].
Proof.
  refine (proj1 (installed_reads_lines [lit "3.9.0"; lit "3.6.9"] _)).
  repeat constructor; try discriminate; vm_compute; intuition discriminate.
Defined.

(** ** switch_python_version: the sort *)

Lemma sort_keyed_of_sorted {A K} (lt : K -> K -> bool) (l : list (K * A)) :
  StronglySorted (keyed_le lt) l -> sort_keyed lt l = l.
Proof.
  induction 1 as [|x l _ IH Hall]; [reflexivity|].
  simpl. rewrite IH. destruct l as [|y l]; [reflexivity|].
  simpl. inversion Hall as [|? ? Hxy _]; subst.
  unfold keyed_le in Hxy. rewrite Hxy. reflexivity.
Qed.

Lemma decorate_map_snd {A K} (key : A -> option K) (l : list (K * A)) :
  Forall (fun kx => key kx.2 = Some kx.1) l -> decorate key (List.map snd l) = Some l.
Proof.
  induction 1 as [|[k x] l Hk _ IH]; [reflexivity|].
  simpl in *. rewrite Hk, IH. reflexivity.
Qed.

Lemma decorate_sorted_items versions decorated :
  decorate sort_key versions = Some decorated ->
  StronglySorted key_le versions ->
  StronglySorted (keyed_le list_lt) decorated.
Proof.
  revert decorated. induction versions as [|v versions IH]; intros decorated Hd Hss.
  - injection Hd as <-. constructor.
  - simpl in Hd. destruct (sort_key v) as [k|] eqn:Hk; [|discriminate].
    destruct (decorate sort_key versions) as [rest|] eqn:Hrest; [|discriminate].
    injection Hd as <-. inversion Hss as [|? ? Hss' Hall]; subst.
    constructor; [apply IH; [reflexivity | exact Hss']|].
    destruct (decorate_Some sort_key versions rest Hrest) as [Hmap Hkeys].
    rewrite List.Forall_forall in *. intros [k' x'] Hin.
    specialize (Hkeys _ Hin). simpl in Hkeys.
    assert (Hx' : In x' versions).
    { rewrite <- Hmap. apply in_map_iff. exists (k', x'). split; [reflexivity | exact Hin]. }
    specialize (Hall x' Hx'). unfold key_le, item_le in Hall.
    rewrite Hk, Hkeys in Hall. exact Hall.
Qed.

(** X8: sorting is idempotent: the list the sort returns is returned as
    it is when it is sorted again; and a list of versions that already is
    in ascending numeric order is returned by the sort as it is, versions
    with equal keys included. *)
Theorem sorted_versions_idempotent versions python_versions :
  sorted list_lt sort_key versions = Some python_versions ->
  sorted list_lt sort_key python_versions = Some python_versions
  /\ (StronglySorted key_le versions -> python_versions = versions).
Proof.
  unfold sorted. intros H.
  destruct (decorate sort_key versions) as [decorated|] eqn:Hd; [|discriminate].
  injection H as <-.
  destruct (decorate_Some sort_key versions decorated Hd) as [Hmap Hkeys].
  assert (Hkeys' : Forall (fun kx => sort_key kx.2 = Some kx.1)
                          (sort_keyed list_lt decorated)).
  { rewrite List.Forall_forall in *. intros kx Hin. apply Hkeys.
    apply (Permutation_in _ (sort_keyed_perm list_lt decorated)). exact Hin. }
  split.
  - rewrite (decorate_map_snd sort_key _ Hkeys'). cbn [fmap option_fmap option_map].
    rewrite sort_keyed_of_sorted; [reflexivity|].
    apply sort_keyed_sorted; [exact list_lt_asym | exact list_le_trans].
  - intros Hss. rewrite sort_keyed_of_sorted; [exact Hmap|].
    eapply decorate_sorted_items; eassumption.
Qed.

Lemma sorted_versions_idempotent_witness :
  sorted list_lt sort_key [lit "3.6.9"; lit "3.10.0"; lit "3.9.0"]
  = Some [lit "3.6.9"; lit "3.9.0"; lit "3.10.0"]
  /\ sorted list_lt sort_key [lit "3.6.9"; lit "3.9.0"; lit "3.10.0"]
     = Some [lit "3.6.9"; lit "3.9.0"; lit "3.10.0"].
Proof.
  assert (H : sorted list_lt sort_key [lit "3.6.9"; lit "3.10.0"; lit "3.9.0"]
              = Some [lit "3.6.9"; lit "3.9.0"; lit "3.10.0"])
    by (vm_compute; reflexivity).
  split; [exact H|].
  exact (proj1 (sorted_versions_idempotent _ _ H)).
Defined.

Lemma split_nonempty sep s : split sep s <> [].
Proof.
  destruct s as [|c s]; simpl; [discriminate|].
  destruct (c =? sep); [discriminate|]. destruct (split sep s); discriminate.
Qed.

Lemma join_split sep s : join [sep] (split sep s) = s.
Proof.
  induction s as [|c s IH]; [reflexivity|].
  simpl. destruct (N.eqb_spec c sep) as [-> | _].
  - destruct (split sep s) as [|first rest] eqn:Hsplit.
    + exfalso. exact (split_nonempty sep s Hsplit).
    + change (join [sep] ([] :: first :: rest)) with (sep :: join [sep] (first :: rest)).
      rewrite IH. reflexivity.
  - destruct (split sep s) as [|first rest] eqn:Hsplit.
    + exfalso. exact (split_nonempty sep s Hsplit).
    + destruct rest as [|second rest].
      * simpl in *. rewrite IH. reflexivity.
      * change (join [sep] ((c :: first) :: second :: rest))
          with (c :: join [sep] (first :: second :: rest)).
        rewrite IH. reflexivity.
Qed.

Lemma split_length sep s :
  List.length (split sep s) = S (List.length (List.filter (N.eqb sep) s)).
Proof.
  induction s as [|c s IH]; [reflexivity|].
  simpl. rewrite (N.eqb_sym sep c). destruct (c =? sep).
  - simpl. rewrite IH. reflexivity.
  - pose proof (split_nonempty sep s) as Hne.
    destruct (split sep s); [contradiction | exact IH].
Qed.

(** X9: the sort key of a version has one integer for each of its
    dot-separated fields, that is, one more than the version has dots,
    and the fields it is computed from give the version back when they
    are joined with dots. *)
Theorem sort_key_fields value key :
  sort_key value = Some key ->
  List.length key = S (List.length (List.filter (N.eqb DOT) value))
  /\ List.length key = List.length (split DOT value)
  /\ join [DOT] (split DOT value) = value
  /\ Forall (fun field => ~ In DOT field /\ is_Some (py_int field)) (split DOT value).
Proof.
  unfold sort_key. intros H.
  assert (Hlen : List.length key = List.length (split DOT value))
    by (symmetry; eapply length_mapM; exact H).
  split; [rewrite Hlen; apply split_length|].
  split; [exact Hlen|]. split; [apply join_split|].
  assert (Hsome : is_Some (mapM py_int (split DOT value))) by (eexists; exact H).
  rewrite mapM_is_Some in Hsome. rewrite List.Forall_forall in *.
  intros field Hin. split; [eapply split_fields_without_sep; exact Hin|].
  apply (Hsome field Hin).
Qed.

Lemma sort_key_fields_witness :
  sort_key (lit "3.10.2") = Some [3; 10; 2]%Z
  /\ List.length [3; 10; 2]%Z = 3%nat.
Proof.
  assert (H : sort_key (lit "3.10.2") = Some [3; 10; 2]%Z) by (vm_compute; reflexivity).
  split; [exact H|].
  exact (proj1 (sort_key_fields _ _ H)).
Defined.

(** ** switch_python_version: every way the task can end *)

Lemma switch_python_version_query_fails ctx version w :
  answer ctx pyenv_versions = None ->
  switch_python_version ctx version w
  = (Raise UnexpectedExit,
     logged [Run pyenv_versions false hide_stdout]
            (print_header (lit "Switching to Python " ++ version) 1 [128013] w).2).
Proof.
  intros Hanswer. unfold switch_python_version.
  unfold bind at 1. rewrite print_header_level_1.
  unfold bind at 1. rewrite ctx_run_spec.
  change (lit "pyenv versions --bare") with pyenv_versions. rewrite Hanswer.
  reflexivity.
Qed.

(** X10: the task ends in one of four ways, always after printing the
    header and asking pyenv for the installed versions.  (1) The query
    fails: UnexpectedExit, nothing more is done.  (2) Some line of the
    answer is not made of integers: ValueError, nothing more is done.
    (3) No installed version starts with the requested one: the red
    notice and the guidance, then Exit.  (4) Otherwise one green notice
    for each matching version, in ascending order, then the switch
    command for the last of them, as the last thing done; the task returns
    normally if that command succeeds and raises UnexpectedExit if not.
    The switch command is run in case (4) only. *)
Theorem switch_python_version_outcomes ctx version w :
  exists header events,
    (switch_python_version ctx version w).2
    = logged ([Print header; Run pyenv_versions false hide_stdout] ++ events) w
    /\ ( (answer ctx pyenv_versions = None
          /\ (switch_python_version ctx version w).1 = Raise UnexpectedExit
          /\ events = [])
         \/ (exists stdout,
               answer ctx pyenv_versions = Some stdout
               /\ ~ Forall (fun line => dotted_integers line = true) (installed stdout)
               /\ (switch_python_version ctx version w).1 = Raise ValueError
               /\ events = [])
         \/ (exists stdout python_versions,
               answer ctx pyenv_versions = Some stdout
               /\ sorted list_lt sort_key (installed stdout) = Some python_versions
               /\ matching version python_versions = []
               /\ (switch_python_version ctx version w).1 = Raise (Exit None None)
               /\ events = [Secho (not_found_notice version) red;
                            Print (guidance python_versions)])
         \/ (exists stdout python_versions selected,
               answer ctx pyenv_versions = Some stdout
               /\ sorted list_lt sort_key (installed stdout) = Some python_versions
               /\ last (matching version python_versions) = Some selected
               /\ (switch_python_version ctx version w).1
                  = match answer ctx (switch_command selected) with
                    | Some _ => Return tt
                    | None => Raise UnexpectedExit
                    end
               /\ events = found_notices version python_versions
                           ++ [Run (switch_command selected) true hide_nothing]) ).
Proof.
  destruct (print_header_level_1_logged (lit "Switching to Python " ++ version)
                                        [128013] w) as [header Hheader].
  exists header.
  destruct (answer ctx pyenv_versions) as [stdout|] eqn:Hanswer.
  2: { exists []. rewrite (switch_python_version_query_fails ctx version w Hanswer).
       rewrite Hheader, logged_logged. cbn [fst snd]. split; [reflexivity|].
       left. repeat split. }
  rewrite (switch_python_version_unfold ctx version w stdout Hanswer).
  cbv zeta. rewrite Hheader.
  destruct (sorted list_lt sort_key (installed stdout)) as [python_versions|] eqn:Hsorted.
  2: { exists []. rewrite logged_logged. cbn [fst snd]. split; [reflexivity|].
       right. left. exists stdout. repeat split.
       intros Hall. apply sort_defined in Hall as [x Hx]. congruence. }
  destruct (sorted_versions _ _ Hsorted) as [Hperm _].
  destruct (last (matching version python_versions)) as [selected|] eqn:Hlast.
  - assert (Htruthy : truthy selected = true).
    { apply (installed_truthy stdout). apply (Permutation_in _ Hperm).
      apply last_Some in Hlast as [l' Hl'].
      assert (Hin : In selected (matching version python_versions))
        by (rewrite Hl'; apply in_or_app; right; left; reflexivity).
      apply List.filter_In in Hin as [Hin _]. exact Hin. }
    rewrite Htruthy.
    exists (found_notices version python_versions
            ++ [Run (switch_command selected) true hide_nothing]).
    cbn [fst snd]. repeat rewrite logged_logged. split; [reflexivity|].
    right. right. right. exists stdout, python_versions, selected.
    repeat split; assumption.
  - exists [Secho (not_found_notice version) red; Print (guidance python_versions)].
    apply last_None in Hlast. unfold found_notices. rewrite Hlast. cbn [List.map].
    cbn [fst snd]. repeat rewrite logged_logged. split; [reflexivity|].
    right. right. left. exists stdout, python_versions. repeat split; assumption.
Qed.

(** ** print_header: the line it prints *)

(** X11: at a level that has a border character, print_header prints one
    text: a newline, a line and a newline.  The line is the content (a
    space, the icon with its trailing space, the text, a space and the
    icon again) with the border character repeated on its left and on its
    right; the content is never cut; the right border is as long as the
    left one or one character longer; and the line is exactly as wide as
    the target width whenever the content is not wider than that. *)
Theorem print_header_line text level icon w fill :
  _HEADER_LEVEL_CHARACTERS !! level = Some fill ->
  let width :=
    if in_ci w then 80%Z
    else Z.max (columns w - 2 * Z.of_nat (List.length (spaced icon))) 0 in
  let content :=
    lit " " ++ spaced icon ++ (if (level =? 1)%Z then upper text else text)
    ++ lit " " ++ spaced icon in
  exists left right,
    print_header text level icon w
    = print ([NL] ++ (repeat fill left ++ content ++ repeat fill right) ++ [NL]) w
    /\ (left <= right <= S left)%nat
    /\ Z.of_nat (left + List.length content + right) = Z.max width (Z.of_nat (List.length content))
    /\ ((Z.of_nat (List.length content) <= width)%Z ->
        Z.of_nat (left + List.length content + right) = width).
Proof.
  intros Hfill width content.
  destruct (center_shape fill width content) as (left & right & Hcenter & Hbalance & Hlen).
  exists left, right.
  split.
  - rewrite (print_header_known_level text level icon w fill Hfill).
    fold width. fold content. rewrite Hcenter. reflexivity.
  - rewrite Hcenter, !length_app, !repeat_length in Hlen.
    split; [exact Hbalance|]. split; [lia | intros Hfits; lia].
Qed.

Lemma print_header_line_witness :
  _HEADER_LEVEL_CHARACTERS !! 3%Z = Some 45
  /\ exists left right,
       print_header (lit "unit tests") 3 [] project_world
       = print ([NL] ++ (repeat 45 left ++ (lit " " ++ lit "unit tests" ++ lit " ")
                         ++ repeat 45 right) ++ [NL]) project_world
       /\ (left <= right <= S left)%nat.
Proof.
  split; [reflexivity|].
  destruct (print_header_line (lit "unit tests") 3 [] project_world 45 eq_refl)
    as (left & right & Hrun & Hbalance & _).
  exists left, right. split; [exact Hrun | exact Hbalance].
Defined.

(** ** ProjectInfo: the layout *)

(** A path joined with a plain name (not empty, not ".", with no slash
    in it) has the path as its parent and the name as its last
    component. *)
Lemma truediv_parent p name :
  truthy name = true -> is_dot name = false -> ~ In SLASH name ->
  parent (truediv p name) = p
  /\ parts (truediv p name) = parts p ++ [name]
  /\ anchored (truediv p name) = anchored p.
Proof.
  intros Htruthy Hdot Hslash.
  assert (Hpath : Path_of name = mkPath false [name]).
  { unfold Path_of. rewrite (split_without_sep SLASH name Hslash).
    cbn [List.filter]. rewrite Htruthy, Hdot. cbn [negb andb]. f_equal.
    destruct name as [|c name]; [discriminate|]. simpl.
    destruct (N.eqb_spec c SLASH) as [-> | _]; [|reflexivity].
    exfalso. apply Hslash. left. reflexivity. }
  assert (Hjoin : truediv p name = mkPath (anchored p) (parts p ++ [name])).
  { unfold truediv. rewrite Hpath. reflexivity. }
  rewrite Hjoin. split; [|split; reflexivity].
  unfold parent. cbn [anchored parts]. rewrite removelast_last. destruct p. reflexivity.
Qed.

Lemma reachable_project_info w : reachable w -> PROJECT_INFO w = ProjectInfo_new.
Proof.
  induction 1 as [fs dir env term | c w _ IH]; [reflexivity|].
  rewrite after_keeps_info. exact IH.
Qed.

Lemma no_slash_in (name : str) : forallb (fun c => negb (c =? SLASH)) name = true -> ~ In SLASH name.
Proof.
  rewrite forallb_forall. intros H Hin. specialize (H _ Hin).
  rewrite N.eqb_refl in H. discriminate.
Qed.

(** X13: in every world that calls of the module lead to, the unit and
    the integration test directories of PROJECT_INFO are the tests
    directory joined with the names unit and integration: the tests
    directory is the parent of both, they differ from each other and from
    their parent, and each of the six paths of PROJECT_INFO is relative
    to the working directory. *)
Theorem project_info_layout w :
  reachable w ->
  let info := PROJECT_INFO w in
  unit_tests_directory info = truediv (tests_directory info) (lit "unit")
  /\ integration_tests_directory info = truediv (tests_directory info) (lit "integration")
  /\ parent (unit_tests_directory info) = tests_directory info
  /\ parent (integration_tests_directory info) = tests_directory info
  /\ last (parts (unit_tests_directory info)) = Some (lit "unit")
  /\ last (parts (integration_tests_directory info)) = Some (lit "integration")
  /\ unit_tests_directory info <> integration_tests_directory info
  /\ unit_tests_directory info <> tests_directory info
  /\ integration_tests_directory info <> tests_directory info
  /\ Forall (fun p => anchored p = false)
            [source_directory info; tests_directory info; unit_tests_directory info;
             integration_tests_directory info; tasks_directory info;
             reports_directory info].
Proof.
  intros Hreach info. subst info. rewrite (reachable_project_info w Hreach).
  destruct (truediv_parent (tests_directory ProjectInfo_new) (lit "unit") eq_refl eq_refl)
    as (Hunit & Hunit_parts & _); [apply no_slash_in; reflexivity|].
  destruct (truediv_parent (tests_directory ProjectInfo_new) (lit "integration")
                           eq_refl eq_refl)
    as (Hint & Hint_parts & _); [apply no_slash_in; reflexivity|].
  split; [reflexivity|]. split; [reflexivity|].
  split; [exact Hunit|]. split; [exact Hint|].
  split; [change (unit_tests_directory ProjectInfo_new)
            with (truediv (tests_directory ProjectInfo_new) (lit "unit"));
          rewrite Hunit_parts; apply last_snoc|].
  split; [change (integration_tests_directory ProjectInfo_new)
            with (truediv (tests_directory ProjectInfo_new) (lit "integration"));
          rewrite Hint_parts; apply last_snoc|].
  split; [discriminate|]. split; [discriminate|]. split; [discriminate|].
  repeat constructor.
Qed.

Lemma project_info_layout_witness :
  reachable (after (call_print_header (lit "checks") 2 []) project_world)
  /\ parent (unit_tests_directory
               (PROJECT_INFO (after (call_print_header (lit "checks") 2 []) project_world)))
     = tests_directory
         (PROJECT_INFO (after (call_print_header (lit "checks") 2 []) project_world)).
Proof.
  assert (H : reachable (after (call_print_header (lit "checks") 2 []) project_world)).
  { apply reachable_after. apply reachable_loaded. }
  split; [exact H|].
  exact (proj1 (proj2 (proj2 (project_info_layout _ H)))).
Defined.
